(** * Risk engine of the Orbi Wealth trading system

    A shallow embedding of [src/core/risk_manager.py]: the [RiskManager]
    class with its position sizing, stop-loss, take-profit, risk-metric and
    portfolio-risk operations.

    Numbers are Python [float]s, that is IEEE 754 binary64 values; they are
    modelled by Rocq's primitive floats, whose operations round exactly as
    the hardware does (an integer argument is read as the float it converts
    to).  Python exceptions are explicit results; the caller's
    [DataFrame] is threaded as state, because the code assigns columns to it.
    Logging has no effect on any value and is left out. *)

From Stdlib Require Import ZArith Lia Floats Ascii String.
From stdpp Require Import gmap strings list pretty.

Set Default Proof Using "Type".

(** ** Python results *)

Inductive exn : Type :=
  | ZeroDivisionError
  | KeyError (key : string)
  | TypeError.

Inductive outcome (A : Type) : Type :=
  | Returns (a : A)
  | Raises (e : exn).
Arguments Returns {A} a.
Arguments Raises {A} e.

#[global] Instance outcome_ret : MRet outcome := @Returns.
#[global] Instance outcome_bind : MBind outcome := λ A B f o,
  match o with
  | Returns a => f a
  | Raises e => Raises e
  end.

(** ** Python floats *)

Module PyFloat.
Local Open Scope float_scope.

(** [x / y] on two Python floats: a zero divisor raises. *)
Definition truediv (x y : float) : outcome float :=
  if y =? 0 then Raises ZeroDivisionError else Returns (x / y).

(** Comparison with [>] and [!=]. *)
Definition gtb (x y : float) : bool := y <? x.
Definition neqb (x y : float) : bool := negb (x =? y).

(** The literals of the module, written as the binary64 values Python
    reads them as. *)
Definition lit_0_02 : float := 0x1.47ae147ae147bp-6.   (* 0.02 *)
Definition lit_0_15 : float := 0x1.3333333333333p-3.   (* 0.15 *)
Definition lit_0_9 : float := 0x1.ccccccccccccdp-1.    (* 0.9 *)
End PyFloat.

(** ** [str.lower] on ASCII text

    Only [A]-[Z] change.  No character outside ASCII lowers to one of
    [l], [o], [n], [g], so the comparison with ['long'] is decided by
    this part of [str.lower]. *)

Definition ascii_lower (c : ascii) : ascii :=
  let n := nat_of_ascii c in
  if (65 <=? n)%nat && (n <=? 90)%nat then ascii_of_nat (n + 32) else c.

Fixpoint lower (s : string) : string :=
  match s with
  | EmptyString => EmptyString
  | String c s' => String (ascii_lower c) (lower s')
  end.

(** ** The risk manager *)

Record RiskManager : Type := {
  max_position_size : float;
  max_drawdown : float;
  stop_loss_percentage : float
}.

Definition DEFAULT_MAX_POSITION_SIZE : float := PyFloat.lit_0_02.
Definition DEFAULT_MAX_DRAWDOWN : float := PyFloat.lit_0_15.
Definition DEFAULT_STOP_LOSS_PERCENTAGE : float := PyFloat.lit_0_02.

(** [RiskManager()] with no argument and no environment override. *)
Definition default_risk_manager : RiskManager := {|
  max_position_size := DEFAULT_MAX_POSITION_SIZE;
  max_drawdown := DEFAULT_MAX_DRAWDOWN;
  stop_loss_percentage := DEFAULT_STOP_LOSS_PERCENTAGE
|}.

Section Operations.
Local Open Scope float_scope.
Import PyFloat.

Variable self : RiskManager.

Definition calculate_position_size (portfolio_value : float)
    (risk_per_trade entry_price stop_loss_price : option float) : outcome float :=
  let risk_per_trade := default (max_position_size self) risk_per_trade in
  let max_risk_amount := portfolio_value * risk_per_trade in
  match entry_price, stop_loss_price with
  | Some entry_price, Some stop_loss_price =>
      let risk_per_unit := abs (entry_price - stop_loss_price) in
      if risk_per_unit =? 0 then
        truediv (portfolio_value * max_position_size self) entry_price
      else
        position_size ← truediv max_risk_amount risk_per_unit;
        position_units ← truediv position_size entry_price;
        Returns position_units
  | _, _ =>
      let position_value := portfolio_value * max_position_size self in
      match entry_price with
      | Some entry_price =>
          position_units ← truediv position_value entry_price;
          Returns position_units
      | None => Returns position_value
      end
  end.

Definition calculate_stop_loss (entry_price : float) (direction : string)
    (atr : option float) (atr_multiplier : float)
    (custom_percentage : option float) : float :=
  let stop_percentage :=
    match custom_percentage with
    | Some p => p
    | None => stop_loss_percentage self
    end in
  match atr with
  | Some atr =>
      let stop_distance := atr * atr_multiplier in
      if String.eqb (lower direction) "long" then entry_price - stop_distance
      else entry_price + stop_distance
  | None =>
      if String.eqb (lower direction) "long" then entry_price * (1 - stop_percentage)
      else entry_price * (1 + stop_percentage)
  end.

Definition calculate_take_profit (entry_price stop_loss_price : float)
    (direction : string) (risk_reward_ratio : float) : float :=
  let risk := abs (entry_price - stop_loss_price) in
  let reward := risk * risk_reward_ratio in
  if String.eqb (lower direction) "long" then entry_price + reward
  else entry_price - reward.
End Operations.

(** ** pandas: the part of [Series] and [DataFrame] the module uses *)

(** A column is either numeric ([float64]; integer columns are read as the
    floats they convert to) or holds other objects (text, timestamps),
    kept as their text.  Arithmetic and statistics on the latter raise
    [TypeError]. *)
Inductive Series : Type :=
  | Float64 (xs : list float)
  | Object (xs : list string).

Record DataFrame : Type := {
  index : list Z;
  columns : gmap string Series
}.

(** [DataFrame.empty]: one of the two axes has length zero. *)
Definition empty (df : DataFrame) : bool :=
  bool_decide (length (index df) = 0%nat) || bool_decide (size (columns df) = 0%nat).

Module Pandas.
Local Open Scope float_scope.

Definition of_nat (n : nat) : float := of_uint63 (Uint63.of_Z (Z.of_nat n)).

(** Reductions skip missing values ([skipna=True]). *)
Definition notna (xs : list float) : list float :=
  List.filter (λ x, negb (is_nan x)) xs.

(** Sum of an array, added from left to right.  NumPy adds arrays of
    eight or more elements in interleaved partial sums, which can round
    differently in the last bits; the statements below that hold for every
    series do not depend on the order, and the worked examples have fewer
    than eight rows. *)
Definition sum (xs : list float) : float := fold_left add xs 0.

Definition count (xs : list float) : nat := length (notna xs).

(** [Series.mean()] *)
Definition mean (xs : list float) : float :=
  sum (notna xs) / of_nat (count xs).

(** [Series.var()] with [ddof=1]: the mean of the squared deviations
    from the mean over [count - 1], missing when [count <= 1]. *)
Definition var (xs : list float) : float :=
  let values := notna xs in
  if (count xs <=? 1)%nat then nan
  else
    let avg := sum values / of_nat (count xs) in
    let sqr := map (λ x, (avg - x) * (avg - x)) values in
    sum sqr / of_nat (count xs - 1).

(** [Series.std()] *)
Definition std (xs : list float) : float := sqrt (var xs).

Definition fmin (a b : float) : float := if b <? a then b else a.
Definition fmax (a b : float) : float := if a <? b then b else a.

(** [Series.min()] *)
Definition min (xs : list float) : float :=
  match notna xs with
  | [] => nan
  | x :: rest => fold_left fmin rest x
  end.

(** [Series.pct_change()]: each value over the one before it, minus one;
    the first row has no return.  (Rows are assumed present: with no
    missing value in the column the fill method plays no part.) *)
Fixpoint pct_change_from (prev : float) (xs : list float) : list float :=
  match xs with
  | [] => []
  | x :: xs' => (x / prev - 1) :: pct_change_from x xs'
  end.

Definition pct_change (xs : list float) : list float :=
  match xs with
  | [] => []
  | x :: xs' => nan :: pct_change_from x xs'
  end.

(** [Series.cumprod()] and [Series.cummax()]: a missing value stays
    missing and does not enter the running result. *)
Fixpoint cum_from (op : float → float → float) (acc : float) (xs : list float)
    : list float :=
  match xs with
  | [] => []
  | x :: xs' =>
      if is_nan x then nan :: cum_from op acc xs'
      else let acc' := op acc x in acc' :: cum_from op acc' xs'
  end.

Definition cumprod (xs : list float) : list float := cum_from mul 1 xs.
Definition cummax (xs : list float) : list float := cum_from fmax neg_infinity xs.

(** [series[series < 0]] *)
Definition negative (xs : list float) : list float :=
  List.filter (λ x, x <? 0) xs.

(** [np.sqrt(252)] *)
Definition sqrt_252 : float := sqrt 252.
End Pandas.

(** ** Code that reads and writes the caller's frame

    A computation takes the frame, may assign columns to it, and either
    returns a value or raises; what it assigned before raising stays. *)

Definition py (A : Type) : Type := DataFrame → DataFrame * outcome A.

#[global] Instance py_ret : MRet py := λ A a df, (df, Returns a).
#[global] Instance py_bind : MBind py := λ A B f m df,
  match m df with
  | (df', Returns a) => f a df'
  | (df', Raises e) => (df', Raises e)
  end.

Definition raise {A : Type} (e : exn) : py A := λ df, (df, Raises e).

(** [try: body except Exception: handler] *)
Definition try_except {A : Type} (body : py A) (handler : exn → py A) : py A := λ df,
  match body df with
  | (df', Returns a) => (df', Returns a)
  | (df', Raises e) => handler e df'
  end.

(** [name in df.columns] *)
Definition has_column (name : string) : py bool := λ df,
  (df, Returns (bool_decide (is_Some (columns df !! name)))).

(** [df[name]] *)
Definition getitem (name : string) : py Series := λ df,
  match columns df !! name with
  | Some s => (df, Returns s)
  | None => (df, Raises (KeyError name))
  end.

(** [df[name] = s] *)
Definition setitem (name : string) (s : Series) : py unit := λ df,
  ({| index := index df; columns := <[name := s]> (columns df) |}, Returns ()).

(** The values of a column used in arithmetic. *)
Definition numeric (s : Series) : py (list float) :=
  match s with
  | Float64 xs => mret xs
  | Object _ => raise TypeError
  end.

(** [df.empty] *)
Definition is_empty : py bool := λ df, (df, Returns (empty df)).

(** ** Formatting with [:.2%]

    CPython multiplies by 100 as a float, then prints the exact binary
    value rounded half-even to two decimals, followed by [%]. *)

Definition round_half_even (num den : Z) : Z :=
  let q := (num / den)%Z in
  match (2 * (num mod den) ?= den)%Z with
  | Lt => q
  | Gt => (q + 1)%Z
  | Eq => if Z.even q then q else (q + 1)%Z
  end.

Definition two_digits (n : Z) : string :=
  if (n <? 10)%Z then "0" +:+ pretty n else pretty n.

Definition format_fixed2 (x : float) : string :=
  match Prim2SF x with
  | S754_nan => "nan"
  | S754_infinity s => if s then "-inf" else "inf"
  | S754_zero s => if s then "-0.00" else "0.00"
  | S754_finite s m e =>
      let hundredths :=
        if (0 <=? e)%Z then (Z.pos m * 2 ^ e * 100)%Z
        else round_half_even (Z.pos m * 100) (2 ^ (- e)) in
      (if s then "-" else "") +:+ pretty (hundredths / 100)%Z +:+ "."
        +:+ two_digits (hundredths mod 100)%Z
  end.

Definition format_percent (x : float) : string :=
  format_fixed2 (x * 100)%float +:+ "%".

(** ** Risk metrics and the portfolio check *)

Inductive RiskCheckResult : Type :=
  | NoResult
  | RiskResult (is_acceptable : bool) (metrics : gmap string float)
      (warnings : list string).

Definition drawdown_warning (observed limit : float) : string :=
  "Maximum drawdown (" +:+ format_percent observed +:+ ") exceeds limit ("
    +:+ format_percent limit +:+ ")".

Section Portfolio.
Local Open Scope float_scope.
Import PyFloat.

Variable self : RiskManager.

(** The body of the [try] block. *)
Definition risk_metrics_try : py (gmap string float) :=
  present ← has_column "returns";
  (if present : bool then mret ()
   else
     value ← getitem "value";
     value ← numeric value;
     setitem "returns" (Float64 (Pandas.pct_change value)));;
  returns ← getitem "returns";
  returns ← numeric returns;
  let metrics : gmap string float := ∅ in
  let metrics := <["volatility" := Pandas.std returns * Pandas.sqrt_252]> metrics in
  let cumulative_returns := Pandas.cumprod (map (add 1) returns) in
  setitem "cumulative_returns" (Float64 cumulative_returns);;
  let cumulative_max := Pandas.cummax cumulative_returns in
  setitem "cumulative_max" (Float64 cumulative_max);;
  let drawdown := zip_with (λ c m, c / m - 1) cumulative_returns cumulative_max in
  setitem "drawdown" (Float64 drawdown);;
  let max_dd := Pandas.min drawdown in
  let metrics := <["max_drawdown" := max_dd]> metrics in
  let metrics :=
    <["sharpe_ratio" := Pandas.mean returns / Pandas.std returns * Pandas.sqrt_252]> metrics in
  let negative_returns := Pandas.negative returns in
  let metrics :=
    if (0 <? length negative_returns)%nat then
      let downside_deviation := Pandas.std negative_returns * Pandas.sqrt_252 in
      <["sortino_ratio" := Pandas.mean returns / downside_deviation * Pandas.sqrt_252]> metrics
    else <["sortino_ratio" := infinity]> metrics in
  let metrics :=
    if neqb max_dd 0 then
      <["calmar_ratio" := Pandas.mean returns * 252 / abs max_dd]> metrics
    else <["calmar_ratio" := infinity]> metrics in
  mret metrics.

Definition calculate_risk_metrics : py (gmap string float) :=
  is_empty ← is_empty;
  if is_empty : bool then mret ∅
  else try_except risk_metrics_try (λ _, mret ∅).

Definition check_portfolio_risk : py (bool * RiskCheckResult) :=
  metrics ← calculate_risk_metrics;
  if bool_decide (size metrics = 0%nat) then mret (false, NoResult)
  else
    let '(is_acceptable, warnings) :=
      match metrics !! "max_drawdown" with
      | Some max_dd =>
          if gtb (abs max_dd) (max_drawdown self)
          then (false, [drawdown_warning (abs max_dd) (max_drawdown self)])
          else (true, [])
      | None => (true, [])
      end in
    mret (is_acceptable, RiskResult is_acceptable metrics warnings).
End Portfolio.

(** ** Sample inputs *)

(** A frame with a [value] column only, indexed [0, 1, ...]. *)
Definition frame (values : list float) : DataFrame :=
  {| index := seqZ 0 (Z.of_nat (length values));
     columns := {[ "value" := Float64 values ]} |}.

(** Portfolio values 64, 48, 24, 6: returns -0.25, -0.5, -0.75. *)
Definition falling_frame : DataFrame := frame [64; 48; 24; 6]%float.

(** Portfolio values 64, 48, 12: returns -0.25, -0.75. *)
Definition falling_frame' : DataFrame := frame [64; 48; 12]%float.

(** A portfolio that never moves. *)
Definition flat_frame : DataFrame := frame [100; 100; 100]%float.

(** A frame whose [value] column holds text. *)
Definition malformed_frame : DataFrame :=
  {| index := [0; 1]%Z; columns := {[ "value" := Object ["n/a"; "n/a"] ]} |}.

(** The return series the metrics are computed from: the [returns] column
    when the frame has one, else the changes of the [value] column. *)
Definition return_series (df : DataFrame) : option (list float) :=
  match columns df !! "returns" with
  | Some (Float64 returns) => Some returns
  | Some (Object _) => None
  | None =>
      match columns df !! "value" with
      | Some (Float64 value) => Some (Pandas.pct_change value)
      | _ => None
      end
  end.

(** [part] occurs in [text]. *)
Definition contains (part text : string) : Prop :=
  exists before after, text = before +:+ part +:+ after.

(** The columns [calculate_risk_metrics] assigns. *)
Definition derived_columns : list string :=
  ["returns"; "cumulative_returns"; "cumulative_max"; "drawdown"].

(** ** What a successful run computes, as functions of the return series *)

Section Computed.
Local Open Scope float_scope.

(** The drawdown series: cumulative returns over their running maximum,
    minus one. *)
Definition drawdown_of (returns : list float) : list float :=
  let cumulative_returns := Pandas.cumprod (map (add 1) returns) in
  let cumulative_max := Pandas.cummax cumulative_returns in
  zip_with (λ c m, c / m - 1) cumulative_returns cumulative_max.

(** The metrics mapping. *)
Definition metrics_of (returns : list float) : gmap string float :=
  let metrics : gmap string float := ∅ in
  let metrics := <["volatility" := Pandas.std returns * Pandas.sqrt_252]> metrics in
  let max_dd := Pandas.min (drawdown_of returns) in
  let metrics := <["max_drawdown" := max_dd]> metrics in
  let metrics :=
    <["sharpe_ratio" := Pandas.mean returns / Pandas.std returns * Pandas.sqrt_252]> metrics in
  let negative_returns := Pandas.negative returns in
  let metrics :=
    if (0 <? length negative_returns)%nat then
      let downside_deviation := Pandas.std negative_returns * Pandas.sqrt_252 in
      <["sortino_ratio" := Pandas.mean returns / downside_deviation * Pandas.sqrt_252]> metrics
    else <["sortino_ratio" := infinity]> metrics in
  if PyFloat.neqb max_dd 0 then
    <["calmar_ratio" := Pandas.mean returns * 252 / abs max_dd]> metrics
  else <["calmar_ratio" := infinity]> metrics.

(** The caller's frame afterwards. *)
Definition assigned_frame (df : DataFrame) (returns : list float) : DataFrame :=
  let cumulative_returns := Pandas.cumprod (map (add 1) returns) in
  {| index := index df;
     columns :=
       <["drawdown" := Float64 (drawdown_of returns)]>
         (<["cumulative_max" := Float64 (Pandas.cummax cumulative_returns)]>
            (<["cumulative_returns" := Float64 cumulative_returns]>
               (<["returns" := Float64 returns]> (columns df)))) |}.
End Computed.

(** ** Defaults read from the environment *)

(** [str.isspace] on ASCII characters: tab to carriage return, the four
    separators 28 to 31, and the space.  (Whitespace outside ASCII is not
    modelled.) *)
Definition is_space (c : ascii) : bool :=
  let n := nat_of_ascii c in
  ((9 <=? n)%nat && (n <=? 13)%nat) || ((28 <=? n)%nat && (n <=? 32)%nat).

Fixpoint lstrip (s : string) : string :=
  match s with
  | EmptyString => EmptyString
  | String c s' => if is_space c then lstrip s' else s
  end.

Fixpoint rstrip (s : string) : string :=
  match s with
  | EmptyString => EmptyString
  | String c s' =>
      match rstrip s' with
      | EmptyString => if is_space c then EmptyString else String c EmptyString
      | r => String c r
      end
  end.

(** [s.strip()] *)
Definition strip (s : string) : string := rstrip (lstrip s).

(** [s.split(sep)[0]]: the text before the first [sep]. *)
Fixpoint split_first (sep : ascii) (s : string) : string :=
  match s with
  | EmptyString => EmptyString
  | String c s' => if Ascii.eqb c sep then EmptyString else String c (split_first sep s')
  end.

(** [os.getenv(name, default)] *)
Definition getenv (environ : gmap string string) (name default_value : string) : string :=
  default default_value (environ !! name).

(** [parse_env_float]; the built-in [float] that reads the text is taken
    as given. *)
Definition parse_env_float {R : Type} (float_of_text : string → R)
    (environ : gmap string string) (env_var default_value : string) : R :=
  let value := getenv environ env_var default_value in
  let value := strip (split_first "#" value) in
  float_of_text value.

(** Text made of whitespace only, and text without a given character. *)
Definition all_space (s : string) : Prop := lstrip s = EmptyString.
Definition without (sep : ascii) (s : string) : Prop := split_first sep s = s.

(** ** Exact values of floats

    Every finite binary64 number is a whole multiple of [2^-1074]; its
    exact value is given as that multiple.  An operation is not rounded
    when the exact value of its result is the exact result on the exact
    values of its operands. *)

Definition exact_sf (x : spec_float) : option Z :=
  match x with
  | S754_zero _ => Some 0%Z
  | S754_finite s m e => Some (cond_Zopp s (Z.pos m * 2 ^ (e - emin)))%Z
  | _ => None
  end.

Definition exact (x : float) : option Z := exact_sf (Prim2SF x).

(** * Facts about binary64 subtraction

    Two floats that compare different have a non-zero difference (there is
    no underflow in a subtraction), and a finite float minus itself is
    zero.  Both follow from the specification of the primitive operations. *)

Module FloatFacts.
Local Open Scope Z_scope.

Definition nonzero_sf (x : spec_float) : bool :=
  match x with
  | S754_zero _ => false
  | _ => true
  end.

(** Not below zero: a zero of either sign, a positive number or [nan]. *)
Definition not_negative_sf (x : spec_float) : bool :=
  match x with
  | S754_infinity s | S754_finite s _ _ => negb s
  | _ => true
  end.

Lemma digits2_pos_lower (m : positive) : 2 ^ (Z.pos (digits2_pos m) - 1) <= Z.pos m.
Proof.
  induction m as [m IH | m IH |]; cbn [digits2_pos].
  - rewrite Pos2Z.inj_succ.
    replace (Z.succ (Z.pos (digits2_pos m)) - 1)
      with (Z.succ (Z.pos (digits2_pos m) - 1)) by lia.
    rewrite Z.pow_succ_r by lia. lia.
  - rewrite Pos2Z.inj_succ.
    replace (Z.succ (Z.pos (digits2_pos m)) - 1)
      with (Z.succ (Z.pos (digits2_pos m) - 1)) by lia.
    rewrite Z.pow_succ_r by lia. lia.
  - cbn. lia.
Qed.

Lemma digits2_pos_shift (m d : positive) :
  digits2_pos (Pos.iter xO m d) = (digits2_pos m + d)%positive.
Proof.
  induction d as [| d IH] using Pos.peano_ind.
  - cbn. lia.
  - rewrite Pos.iter_succ. cbn [digits2_pos]. rewrite IH. lia.
Qed.

Lemma shr_1_m (mrs : shr_record) : 0 <= shr_m mrs -> shr_m (shr_1 mrs) = shr_m mrs / 2.
Proof.
  destruct mrs as [m r s]; cbn [shr_m]. intros Hm.
  destruct m as [| [p | p |] | p]; cbn [shr_1 shr_m]; try lia.
  - reflexivity.
  - apply Z.div_unique with 1; lia.
  - apply Z.div_unique with 0; lia.
  - reflexivity.
Qed.

Lemma iter_shr_1_m (p : positive) (mrs : shr_record) :
  0 <= shr_m mrs -> shr_m (SpecFloat.iter_pos shr_1 p mrs) = shr_m mrs / 2 ^ Z.pos p.
Proof.
  revert mrs. induction p as [p IH | p IH |]; intros mrs Hm; cbn [SpecFloat.iter_pos].
  - assert (H1 : 0 <= shr_m (shr_1 mrs)).
    { rewrite shr_1_m by done. apply Z.div_pos; lia. }
    assert (H2 : 0 <= shr_m (SpecFloat.iter_pos shr_1 p (shr_1 mrs))).
    { rewrite IH by done. apply Z.div_pos; lia. }
    rewrite IH, IH, shr_1_m by done.
    rewrite !Z.div_div by lia. f_equal.
    rewrite Pos2Z.inj_xI, Z.pow_add_r, Z.pow_mul_r by lia.
    change (2 ^ 2) with 4. rewrite Z.pow_1_r.
    replace (4 ^ Z.pos p) with (2 ^ Z.pos p * 2 ^ Z.pos p); [lia |].
    rewrite <- Z.pow_add_r by lia. replace (Z.pos p + Z.pos p) with (2 * Z.pos p) by lia.
    rewrite Z.pow_mul_r by lia. reflexivity.
  - assert (H2 : 0 <= shr_m (SpecFloat.iter_pos shr_1 p mrs)).
    { rewrite IH by done. apply Z.div_pos; lia. }
    rewrite IH, IH by done.
    rewrite !Z.div_div by lia. f_equal.
    rewrite Pos2Z.inj_xO. rewrite <- Z.pow_add_r by lia. f_equal. lia.
  - rewrite shr_1_m by done. reflexivity.
Qed.

Lemma shr_fexp_positive (m : positive) (e : Z) (l : location) :
  emin <= e ->
  0 < shr_m (fst (shr_fexp prec emax (Z.pos m) e l)) /\
  emin <= snd (shr_fexp prec emax (Z.pos m) e l).
Proof.
  intros He. unfold shr_fexp, shr.
  set (mrs := shr_record_of_loc (Z.pos m) l).
  assert (Hmrs : shr_m mrs = Z.pos m) by (unfold mrs; destruct l as [| []]; reflexivity).
  cbn [Zdigits2].
  destruct (fexp prec emax (Z.pos (digits2_pos m) + e) - e) as [| p | p] eqn:Hn; cbn [fst snd];
    try (rewrite Hmrs; lia).
  assert (Hp : Z.pos p = Z.pos (digits2_pos m) - prec).
  { revert Hn. unfold fexp, SpecFloat.emin, prec, emax in *. lia. }
  split; [| lia].
  rewrite iter_shr_1_m by (rewrite Hmrs; lia). rewrite Hmrs.
  apply Z.div_str_pos. split; [lia |].
  etransitivity; [| apply digits2_pos_lower].
  apply Z.pow_le_mono_r; [lia |]. unfold prec in Hp. lia.
Qed.

Lemma round_nearest_even_positive (m : Z) (l : location) :
  0 < m -> 0 < round_nearest_even m l.
Proof. intros Hm. destruct l as [| []]; cbn; try lia. destruct (Z.even m); lia. Qed.

Lemma binary_round_aux_nonzero (s : bool) (m : positive) (e : Z) (l : location) :
  emin <= e -> nonzero_sf (binary_round_aux prec emax s (Z.pos m) e l) = true.
Proof.
  intros He. unfold binary_round_aux.
  destruct (shr_fexp_positive m e l He) as [H1 H2].
  destruct (shr_fexp prec emax (Z.pos m) e l) as [mrs1 e1]. cbn [fst snd] in H1, H2.
  pose proof (round_nearest_even_positive _ (loc_of_shr_record mrs1) H1) as H3.
  destruct (round_nearest_even (shr_m mrs1) (loc_of_shr_record mrs1)) as [| m2 | m2]; try lia.
  destruct (shr_fexp_positive m2 e1 loc_Exact H2) as [H4 H5].
  destruct (shr_fexp prec emax (Z.pos m2) e1 loc_Exact) as [mrs2 e2]. cbn [fst snd] in H4, H5.
  destruct (shr_m mrs2) as [| m3 | m3]; try lia.
  destruct (e2 <=? emax - prec); reflexivity.
Qed.

Lemma binary_round_nonzero (s : bool) (m : positive) (e : Z) :
  emin <= e -> nonzero_sf (binary_round prec emax s m e) = true.
Proof.
  intros He. unfold binary_round.
  destruct (shl_align m e (fexp prec emax (Z.pos (digits2_pos m) + e))) as [mz ez] eqn:Hal.
  apply binary_round_aux_nonzero.
  revert Hal. unfold shl_align.
  destruct (fexp prec emax (Z.pos (digits2_pos m) + e) - e) eqn:Hd; intros [= <- <-]; try lia.
  unfold fexp. fold emin. lia.
Qed.

Lemma canonical_exponent (m : positive) (e : Z) :
  bounded prec emax m e = true ->
  fexp prec emax (Z.pos (digits2_pos m) + e) = e /\ emin <= e.
Proof.
  unfold bounded, canonical_mantissa. intros [H1 _]%andb_prop.
  apply Z.eqb_eq in H1. split; [done |].
  rewrite <- H1. unfold fexp. lia.
Qed.

Lemma shl_align_min_l (m : positive) (e e' : Z) :
  e <= e' -> shl_align m e (Z.min e e') = (m, e).
Proof. intros He. unfold shl_align. rewrite Z.min_l, Z.sub_diag by done. reflexivity. Qed.

Lemma shl_align_min_r (m : positive) (e e' : Z) :
  e' < e ->
  exists d, Z.pos d = e - e' /\ shl_align m e (Z.min e' e) = (Pos.iter xO m d, e').
Proof.
  intros He. unfold shl_align. rewrite Z.min_l by lia.
  destruct (e' - e) as [| d | d] eqn:Hd; try lia.
  exists d. split; [lia | reflexivity].
Qed.

Lemma aligned_mantissas_differ (mx my : positive) (ex ey : Z) :
  bounded prec emax mx ex = true -> bounded prec emax my ey = true ->
  (ex, mx) <> (ey, my) ->
  fst (shl_align mx ex (Z.min ex ey)) <> fst (shl_align my ey (Z.min ex ey)).
Proof.
  intros [Hx _]%canonical_exponent [Hy _]%canonical_exponent Hne.
  destruct (Z.lt_total ex ey) as [Hlt | [-> | Hlt]].
  - rewrite shl_align_min_l by lia.
    destruct (shl_align_min_r my ey ex Hlt) as (d & Hd & ->). cbn [fst].
    intros ->. rewrite digits2_pos_shift in Hx.
    rewrite Pos2Z.inj_add, Hd in Hx.
    replace (Z.pos (digits2_pos my) + (ey - ex) + ex) with (Z.pos (digits2_pos my) + ey) in Hx by lia.
    lia.
  - rewrite !shl_align_min_l by lia. cbn [fst]. congruence.
  - rewrite Z.min_comm, (shl_align_min_l my) by lia.
    destruct (shl_align_min_r mx ex ey Hlt) as (d & Hd & Hal).
    rewrite Z.min_comm in Hal. rewrite Z.min_comm, Hal. cbn [fst].
    intros <-. rewrite digits2_pos_shift in Hy.
    rewrite Pos2Z.inj_add, Hd in Hy.
    replace (Z.pos (digits2_pos mx) + (ex - ey) + ey) with (Z.pos (digits2_pos mx) + ex) in Hy by lia.
    lia.
Qed.

Lemma SFeqb_finite_same (s : bool) (m : positive) (e : Z) :
  SFeqb (S754_finite s m e) (S754_finite s m e) = true.
Proof.
  unfold SFeqb, SFcompare. rewrite Z.compare_refl, Pos.compare_cont_refl.
  destruct s; reflexivity.
Qed.

Lemma binary_normalize_nonzero (m e : Z) (s : bool) :
  m <> 0 -> emin <= e -> nonzero_sf (binary_normalize prec emax m e s) = true.
Proof.
  intros Hm He. destruct m as [| m | m]; [done | |]; cbn [binary_normalize];
    by apply binary_round_nonzero.
Qed.

Lemma SFsub_nonzero (x y : spec_float) :
  valid_binary x = true -> valid_binary y = true ->
  SFeqb x y = false -> nonzero_sf (SF64sub x y) = true.
Proof.
  intros Hx Hy Hne.
  destruct x as [sx | sx | | sx mx ex], y as [sy | sy | | sy my ey];
    try reflexivity; try discriminate Hne;
    try (destruct sx, sy; reflexivity).
  cbn [SpecFloat.valid_binary] in Hx, Hy.
  unfold SF64sub, SFsub. apply binary_normalize_nonzero.
  - pose proof (aligned_mantissas_differ mx my ex ey Hx Hy) as Hal.
    destruct sx, sy; cbn [cond_Zopp]; try lia.
    + assert ((ex, mx) <> (ey, my)) as Hd
        by (intros [= -> ->]; by rewrite SFeqb_finite_same in Hne).
      specialize (Hal Hd). intros Heq. apply Hal. lia.
    + assert ((ex, mx) <> (ey, my)) as Hd
        by (intros [= -> ->]; by rewrite SFeqb_finite_same in Hne).
      specialize (Hal Hd). intros Heq. apply Hal. lia.
  - apply canonical_exponent in Hx as [_ Hx], Hy as [_ Hy]. lia.
Qed.

Lemma SFsub_diag_finite (s : bool) (m : positive) (e : Z) :
  SF64sub (S754_finite s m e) (S754_finite s m e) = S754_zero false.
Proof. unfold SF64sub, SFsub. rewrite Z.sub_diag. reflexivity. Qed.

Local Open Scope float_scope.

Lemma abs_eqb_zero (x : float) :
  (abs x =? 0) = negb (nonzero_sf (Prim2SF x)).
Proof.
  rewrite FloatAxioms.eqb_spec, abs_spec.
  change (Prim2SF 0) with (S754_zero false).
  destruct (Prim2SF x) as [s | s | | s m e]; reflexivity.
Qed.

Lemma sub_abs_nonzero (x y : float) :
  (x =? y) = false -> (abs (x - y) =? 0) = false.
Proof.
  intros Hne. rewrite abs_eqb_zero, sub_spec, SFsub_nonzero; [done | | |].
  - apply Prim2SF_valid.
  - apply Prim2SF_valid.
  - by rewrite <- FloatAxioms.eqb_spec.
Qed.

Lemma is_finite_SF (x : float) :
  is_finite x = true ->
  (exists s, Prim2SF x = S754_zero s) \/ (exists s m e, Prim2SF x = S754_finite s m e).
Proof.
  unfold is_finite, is_nan, is_infinity.
  rewrite !FloatAxioms.eqb_spec, abs_spec. change (Prim2SF infinity) with (S754_infinity false).
  destruct (Prim2SF x) as [s | [] | | s m e]; cbn; intros H; try discriminate H; eauto.
Qed.

Lemma sub_diag_abs_zero (x : float) :
  is_finite x = true -> (abs (x - x) =? 0) = true.
Proof.
  intros Hx. rewrite abs_eqb_zero, sub_spec.
  destruct (is_finite_SF x Hx) as [[s ->] | (s & m & e & ->)].
  - destruct s; reflexivity.
  - by rewrite SFsub_diag_finite.
Qed.

Lemma float_neq (x y : float) : PrimFloat.Leibniz.eqb x y = false -> x <> y.
Proof. intros H Heq. apply FloatAxioms.Leibniz.eqb_spec in Heq. congruence. Qed.

Lemma returns_neq (x y : float) :
  PrimFloat.Leibniz.eqb x y = false -> Returns x <> Returns y.
Proof. intros H [= Heq]. by apply (float_neq x y). Qed.

Lemma positive_not_zero (x : float) : (0 <? x) = true -> (x =? 0) = false.
Proof.
  rewrite ltb_spec, FloatAxioms.eqb_spec. change (Prim2SF 0) with (S754_zero false).
  destruct (Prim2SF x) as [s | s | | s m e]; try done; by destruct s.
Qed.

Lemma truediv_positive (x y : float) :
  (0 <? y) = true -> PyFloat.truediv x y = Returns (x / y).
Proof. intros Hy. unfold PyFloat.truediv. by rewrite positive_not_zero. Qed.
End FloatFacts.

(** * Operations that are not rounded *)

Module FloatExact.
Import FloatFacts.
Local Open Scope Z_scope.

Lemma digits2_pos_upper (m : positive) : Z.pos m < 2 ^ Z.pos (digits2_pos m).
Proof.
  induction m as [m IH | m IH |]; cbn [digits2_pos]; [| | done];
    rewrite Pos2Z.inj_succ, Z.pow_succ_r by lia; lia.
Qed.

Lemma digits_shift_unique (a b : positive) (p q : Z) :
  0 <= p -> 0 <= q -> Z.pos a * 2 ^ p = Z.pos b * 2 ^ q ->
  Z.pos (digits2_pos a) + p = Z.pos (digits2_pos b) + q.
Proof.
  intros Hp Hq Heq.
  pose proof (digits2_pos_lower a) as Hal. pose proof (digits2_pos_upper a) as Hau.
  pose proof (digits2_pos_lower b) as Hbl. pose proof (digits2_pos_upper b) as Hbu.
  set (da := Z.pos (digits2_pos a)) in *. set (db := Z.pos (digits2_pos b)) in *.
  assert (Hda : 1 <= da) by (unfold da; lia). assert (Hdb : 1 <= db) by (unfold db; lia).
  assert (H2p : 0 < 2 ^ p) by (apply Z.pow_pos_nonneg; lia).
  assert (H2q : 0 < 2 ^ q) by (apply Z.pow_pos_nonneg; lia).
  destruct (Z.lt_trichotomy (da + p) (db + q)) as [Hlt | [Heq' | Hgt]]; [| done |]; exfalso.
  - assert (2 ^ (da + p) <= 2 ^ (db - 1 + q)) by (apply Z.pow_le_mono_r; lia).
    rewrite !Z.pow_add_r in * by lia. nia.
  - assert (2 ^ (db + q) <= 2 ^ (da - 1 + p)) by (apply Z.pow_le_mono_r; lia).
    rewrite !Z.pow_add_r in * by lia. nia.
Qed.

Lemma pos_iter_xO (m d : positive) : Z.pos (Pos.iter xO m d) = Z.pos m * 2 ^ Z.pos d.
Proof.
  induction d as [| d IH] using Pos.peano_ind.
  - cbn [Pos.iter]. lia.
  - rewrite Pos.iter_succ, Pos2Z.inj_xO, IH, Pos2Z.inj_succ, Z.pow_succ_r by lia. lia.
Qed.

Lemma shr_1_even (m : Z) :
  0 < m -> shr_1 (Build_shr_record (m * 2) false false) = Build_shr_record m false false.
Proof. intros Hm. destruct m as [| q | q]; [lia | | lia]. by rewrite Z.mul_comm. Qed.

Lemma iter_shr_1_exact (p : positive) (m : Z) :
  0 < m ->
  SpecFloat.iter_pos shr_1 p (Build_shr_record (m * 2 ^ Z.pos p) false false)
    = Build_shr_record m false false.
Proof.
  revert m. induction p as [p IH | p IH |]; intros m Hm; cbn [SpecFloat.iter_pos].
  - assert (H2 : 0 < 2 ^ Z.pos p) by (apply Z.pow_pos_nonneg; lia).
    replace (m * 2 ^ Z.pos p~1) with (m * 2 ^ Z.pos p * 2 ^ Z.pos p * 2).
    + rewrite shr_1_even by nia. rewrite IH by nia. by apply IH.
    + replace (Z.pos p~1) with (Z.pos p + Z.pos p + 1) by lia.
      rewrite !Z.pow_add_r, Z.pow_1_r by lia. lia.
  - assert (H2 : 0 < 2 ^ Z.pos p) by (apply Z.pow_pos_nonneg; lia).
    replace (m * 2 ^ Z.pos p~0) with (m * 2 ^ Z.pos p * 2 ^ Z.pos p).
    + rewrite IH by nia. by apply IH.
    + replace (Z.pos p~0) with (Z.pos p + Z.pos p) by lia.
      rewrite !Z.pow_add_r by lia. lia.
  - rewrite Z.pow_1_r. by apply shr_1_even.
Qed.

Lemma shr_fexp_canonical (m : positive) (e : Z) :
  fexp prec emax (Z.pos (digits2_pos m) + e) = e ->
  shr_fexp prec emax (Z.pos m) e loc_Exact = (Build_shr_record (Z.pos m) false false, e).
Proof. intros He. unfold shr_fexp, shr. cbn [Zdigits2]. by rewrite He, Z.sub_diag. Qed.

Lemma binary_round_aux_canonical (s : bool) (m : positive) (e : Z) :
  bounded prec emax m e = true ->
  binary_round_aux prec emax s (Z.pos m) e loc_Exact = S754_finite s m e.
Proof.
  intros Hb. pose proof Hb as [Hc Hle]%andb_prop.
  apply canonical_exponent in Hb as [Hfexp _].
  unfold binary_round_aux. rewrite (shr_fexp_canonical m e Hfexp).
  cbn [shr_m loc_of_shr_record round_nearest_even].
  rewrite (shr_fexp_canonical m e Hfexp). cbn [shr_m]. by rewrite Hle.
Qed.

Lemma binary_round_exact (s : bool) (m mz : positive) (e ez : Z) :
  emin <= e -> bounded prec emax mz ez = true ->
  Z.pos mz * 2 ^ (ez - emin) = Z.pos m * 2 ^ (e - emin) ->
  binary_round prec emax s m e = S754_finite s mz ez.
Proof.
  intros He Hb Hval.
  pose proof (canonical_exponent mz ez Hb) as [Hfexp Hez].
  assert (Hdig : Z.pos (digits2_pos m) + e = Z.pos (digits2_pos mz) + ez).
  { pose proof (digits_shift_unique m mz (e - emin) (ez - emin)) as H.
    specialize (H ltac:(lia) ltac:(lia) (eq_sym Hval)). lia. }
  unfold binary_round. rewrite Hdig, Hfexp. unfold shl_align.
  destruct (ez - e) as [| d | d] eqn:Hd.
  - assert (ez = e) as -> by lia. assert (mz = m) as -> by nia.
    by apply binary_round_aux_canonical.
  - assert (Hm : Z.pos m = Z.pos mz * 2 ^ Z.pos d).
    { replace (ez - emin) with (e - emin + Z.pos d) in Hval by lia.
      rewrite Z.pow_add_r in Hval by lia.
      assert (0 < 2 ^ (e - emin)) by (apply Z.pow_pos_nonneg; lia). nia. }
    unfold binary_round_aux, shr_fexp, shr. cbn [Zdigits2].
    rewrite Hdig, Hfexp, Hd. cbn [shr_record_of_loc]. rewrite Hm.
    rewrite iter_shr_1_exact by lia.
    cbn [shr_m loc_of_shr_record round_nearest_even Zdigits2].
    replace (e + Z.pos d) with ez by lia. rewrite Hfexp, Z.sub_diag. cbn [shr_m].
    apply andb_prop in Hb as [_ Hle]. by rewrite Hle.
  - assert (Hm : Z.pos mz = Z.pos m * 2 ^ Z.pos d).
    { replace (e - emin) with (ez - emin + Z.pos d) in Hval by lia.
      rewrite Z.pow_add_r in Hval by lia.
      assert (0 < 2 ^ (ez - emin)) by (apply Z.pow_pos_nonneg; lia). nia. }
    rewrite <- pos_iter_xO in Hm. injection Hm as <-.
    by apply binary_round_aux_canonical.
Qed.

Lemma aligned_value (m : positive) (e e' : Z) :
  emin <= e -> emin <= e' ->
  Z.pos (fst (shl_align m e (Z.min e e'))) * 2 ^ (Z.min e e' - emin)
    = Z.pos m * 2 ^ (e - emin).
Proof.
  intros He He'. destruct (Z.le_gt_cases e e') as [Hle | Hgt].
  - rewrite shl_align_min_l by done. cbn [fst]. by rewrite Z.min_l.
  - destruct (shl_align_min_r m e e' Hgt) as (d & Hd & Hal).
    rewrite Z.min_comm, Hal. cbn [fst]. rewrite Z.min_l by lia.
    rewrite pos_iter_xO, Hd, <- Z.mul_assoc, <- Z.pow_add_r by lia.
    do 2 f_equal. lia.
Qed.

Lemma exact_sf_finite_nonzero (s : bool) (m : positive) (e : Z) :
  emin <= e -> 0 < Z.pos m * 2 ^ (e - emin).
Proof. intros He. assert (0 < 2 ^ (e - emin)) by (apply Z.pow_pos_nonneg; lia). lia. Qed.

Lemma binary_normalize_exact (d e : Z) (z : spec_float) :
  emin <= e -> valid_binary z = true ->
  exact_sf z = Some (d * 2 ^ (e - emin)) ->
  exact_sf (binary_normalize prec emax d e false) = Some (d * 2 ^ (e - emin)).
Proof.
  intros He Hz Hval. destruct d as [| d | d]; [done | |]; cbn [binary_normalize].
  - destruct z as [sz | sz | | sz mz ez]; try done; cbn [exact_sf] in Hval.
    + pose proof (exact_sf_finite_nonzero false d e He). injection Hval as Hval. lia.
    + cbn [SpecFloat.valid_binary] in Hz.
      pose proof (canonical_exponent mz ez Hz) as [_ Hez].
      pose proof (exact_sf_finite_nonzero false d e He).
      pose proof (exact_sf_finite_nonzero false mz ez Hez).
      injection Hval as Hval. destruct sz; cbn [cond_Zopp] in Hval; [lia |].
      rewrite (binary_round_exact false d mz e ez He Hz Hval).
      cbn [exact_sf cond_Zopp]. by rewrite Hval.
  - destruct z as [sz | sz | | sz mz ez]; try done; cbn [exact_sf] in Hval.
    + pose proof (exact_sf_finite_nonzero false d e He). injection Hval as Hval. lia.
    + cbn [SpecFloat.valid_binary] in Hz.
      pose proof (canonical_exponent mz ez Hz) as [_ Hez].
      pose proof (exact_sf_finite_nonzero false d e He).
      pose proof (exact_sf_finite_nonzero false mz ez Hez).
      injection Hval as Hval. destruct sz; cbn [cond_Zopp] in Hval; [| lia].
      assert (Hval' : Z.pos mz * 2 ^ (ez - emin) = Z.pos d * 2 ^ (e - emin)) by lia.
      rewrite (binary_round_exact true d mz e ez He Hz Hval').
      cbn [exact_sf cond_Zopp]. f_equal. lia.
Qed.

Lemma SFsub_exact (x y z : spec_float) (X Y : Z) :
  valid_binary x = true -> valid_binary y = true -> valid_binary z = true ->
  exact_sf x = Some X -> exact_sf y = Some Y -> exact_sf z = Some (X - Y) ->
  exact_sf (SF64sub x y) = Some (X - Y).
Proof.
  intros Hx Hy Hz HX HY HZ.
  destruct x as [sx | sx | | sx mx ex], y as [sy | sy | | sy my ey]; try done;
    cbn [exact_sf] in HX, HY; injection HX as <-; injection HY as <-.
  - by destruct sx, sy.
  - cbn [SF64sub SFsub exact_sf]. f_equal. destruct sy; cbn [cond_Zopp negb]; lia.
  - cbn [SF64sub SFsub exact_sf]. f_equal. lia.
  - cbn [SpecFloat.valid_binary] in Hx, Hy.
    pose proof (canonical_exponent mx ex Hx) as [_ Hex].
    pose proof (canonical_exponent my ey Hy) as [_ Hey].
    pose proof (aligned_value mx ex ey Hex Hey) as Hax.
    pose proof (aligned_value my ey ex Hey Hex) as Hay. rewrite (Z.min_comm ey ex) in Hay.
    unfold SF64sub, SFsub.
    set (ax := fst (shl_align mx ex (Z.min ex ey))) in *.
    set (ay := fst (shl_align my ey (Z.min ex ey))) in *.
    assert (Hd : cond_Zopp sx (Z.pos mx * 2 ^ (ex - emin))
                 - cond_Zopp sy (Z.pos my * 2 ^ (ey - emin))
                 = (cond_Zopp sx (Z.pos ax) - cond_Zopp sy (Z.pos ay))
                   * 2 ^ (Z.min ex ey - emin)).
    { rewrite <- Hax, <- Hay. destruct sx, sy; cbn [cond_Zopp]; lia. }
    rewrite Hd in HZ |- *. apply (binary_normalize_exact _ _ z); [lia | done | done].
Qed.

Lemma SFeqb_exact (x y : spec_float) (v : Z) :
  valid_binary x = true -> valid_binary y = true ->
  exact_sf x = Some v -> exact_sf y = Some v -> SFeqb x y = true.
Proof.
  intros Hx Hy HX HY.
  destruct x as [sx | sx | | sx mx ex], y as [sy | sy | | sy my ey]; try done;
    cbn [exact_sf] in HX, HY; injection HX as <-; injection HY as HY;
    cbn [SpecFloat.valid_binary] in Hx, Hy.
  - pose proof (canonical_exponent my ey Hy) as [_ Hey].
    pose proof (exact_sf_finite_nonzero false my ey Hey). destruct sy; cbn [cond_Zopp] in HY; lia.
  - pose proof (canonical_exponent mx ex Hx) as [_ Hex].
    pose proof (exact_sf_finite_nonzero false mx ex Hex). destruct sx; cbn [cond_Zopp] in HY; lia.
  - pose proof (canonical_exponent mx ex Hx) as [Hfx Hex].
    pose proof (canonical_exponent my ey Hy) as [Hfy Hey].
    pose proof (exact_sf_finite_nonzero false mx ex Hex).
    pose proof (exact_sf_finite_nonzero false my ey Hey).
    assert (Hs : sx = sy) by (destruct sx, sy; cbn [cond_Zopp] in HY; try done; lia).
    subst sy.
    assert (Hval : Z.pos my * 2 ^ (ey - emin) = Z.pos mx * 2 ^ (ex - emin))
      by (destruct sx; cbn [cond_Zopp] in HY; lia).
    pose proof (digits_shift_unique my mx (ey - emin) (ex - emin)
                  ltac:(lia) ltac:(lia) Hval) as Hdig.
    assert (ey = ex) as ->.
    { rewrite <- Hfy, <- Hfx. f_equal. lia. }
    assert (my = mx) as -> by nia.
    apply SFeqb_finite_same.
Qed.

Local Open Scope float_scope.

Lemma sub_exact (x y z : float) (X Y : Z) :
  exact x = Some X -> exact y = Some Y -> exact z = Some (X - Y)%Z ->
  exact (x - y) = Some (X - Y)%Z.
Proof.
  unfold exact. rewrite sub_spec. apply SFsub_exact; apply Prim2SF_valid.
Qed.

Lemma eqb_exact (x y : float) (v : Z) :
  exact x = Some v -> exact y = Some v -> (x =? y) = true.
Proof.
  unfold exact. rewrite FloatAxioms.eqb_spec. apply SFeqb_exact; apply Prim2SF_valid.
Qed.
End FloatExact.

(** * Position sizing *)

Section PositionSizing.
Local Open Scope float_scope.
Import PyFloat.

(** C1. With an entry price above zero and a stop-loss price different
    from it, the position size is
    [(portfolio_value * risk_per_trade / |entry_price - stop_loss_price|) / entry_price],
    where an absent [risk_per_trade] is [max_position_size]; for a
    portfolio of 100000, entry 150, stop 145 and the default manager this
    is [(100000 * 0.02 / 5) / 150], the float [2.6666666666666665]. *)
Theorem position_size_risk_formula :
  (forall (self : RiskManager) (portfolio_value : float) (risk_per_trade : option float)
      (entry_price stop_loss_price : float),
    (0 <? entry_price) = true ->
    neqb entry_price stop_loss_price = true ->
    calculate_position_size self portfolio_value risk_per_trade
        (Some entry_price) (Some stop_loss_price)
      = Returns (portfolio_value * default (max_position_size self) risk_per_trade
                   / abs (entry_price - stop_loss_price) / entry_price))
  /\ calculate_position_size default_risk_manager 100000 None (Some 150) (Some 145)
      = Returns (100000 * lit_0_02 / 5 / 150)
  /\ 100000 * lit_0_02 / 5 / 150 = 0x1.5555555555555p+1.
Proof.
  split; [| split; reflexivity].
  intros self pv rpt e s He Hne. unfold calculate_position_size.
  apply negb_true_iff in Hne.
  rewrite (FloatFacts.sub_abs_nonzero e s Hne). unfold truediv.
  rewrite (FloatFacts.sub_abs_nonzero e s Hne). cbn [mbind outcome_bind].
  by rewrite (FloatFacts.positive_not_zero e He).
Qed.

Lemma position_size_risk_formula_witness :
  (0 <? 150) = true /\ neqb 150 145 = true /\
  calculate_position_size default_risk_manager 100000 (Some lit_0_02) (Some 150) (Some 145)
    = Returns (100000 * lit_0_02 / abs (150 - 145) / 150).
Proof.
  split; [reflexivity |]. split; [reflexivity |].
  exact (proj1 position_size_risk_formula default_risk_manager 100000 (Some lit_0_02)
           150 145 eq_refl eq_refl).
Defined.

(** C6 as stated fails when the entry price is the float [inf]: [inf - inf]
    is [nan], which is not equal to zero, so the risk-based branch runs and
    yields [nan] where the fallback would be [0.0]. *)
Lemma position_size_degenerate_stop_infinite :
  (0 <? 100000) = true /\ (0 <? infinity) = true /\
  calculate_position_size default_risk_manager 100000 None (Some infinity) (Some infinity)
    = Returns nan /\
  100000 * max_position_size default_risk_manager / infinity = 0 /\
  calculate_position_size default_risk_manager 100000 None (Some infinity) (Some infinity)
    <> Returns (100000 * max_position_size default_risk_manager / infinity).
Proof.
  repeat split; try reflexivity.
  change (Returns nan <> Returns 0). by apply FloatFacts.returns_neq.
Qed.

(** C6, amended. For a portfolio value above zero and a finite entry price
    above zero, a stop-loss price equal to the entry price gives the
    fallback [portfolio_value * max_position_size / entry_price]; nothing
    is raised. *)
Theorem position_size_degenerate_stop (self : RiskManager)
    (portfolio_value : float) (risk_per_trade : option float) (entry_price : float) :
  (0 <? portfolio_value) = true ->
  (0 <? entry_price) = true ->
  is_finite entry_price = true ->
  calculate_position_size self portfolio_value risk_per_trade
      (Some entry_price) (Some entry_price)
    = Returns (portfolio_value * max_position_size self / entry_price).
Proof.
  intros _ He Hfin. unfold calculate_position_size.
  rewrite (FloatFacts.sub_diag_abs_zero entry_price Hfin).
  by apply FloatFacts.truediv_positive.
Qed.

Lemma position_size_degenerate_stop_witness :
  (0 <? 100000) = true /\ (0 <? 150) = true /\ is_finite 150 = true /\
  calculate_position_size default_risk_manager 100000 None (Some 150) (Some 150)
    = Returns (100000 * lit_0_02 / 150).
Proof.
  do 3 (split; [reflexivity |]).
  exact (position_size_degenerate_stop default_risk_manager 100000 None 150
           eq_refl eq_refl eq_refl).
Defined.

(** C9. Without an entry price the result is
    [portfolio_value * max_position_size], whatever stop-loss price and
    risk per trade are passed. *)
Theorem position_size_without_entry (self : RiskManager) (portfolio_value : float)
    (risk_per_trade stop_loss_price : option float) :
  calculate_position_size self portfolio_value risk_per_trade None stop_loss_price
    = Returns (portfolio_value * max_position_size self).
Proof. unfold calculate_position_size. by destruct stop_loss_price. Qed.
End PositionSizing.

(** * Stop-loss and take-profit prices *)

Section ProtectivePrices.
Local Open Scope float_scope.

Example lower_mixed_case : lower "LoNg" = "long".
Proof. reflexivity. Qed.

(** C7. When an ATR is passed the stop-loss is the ATR one: a custom
    percentage passed along changes nothing, a short trade gets
    [entry_price + atr * atr_multiplier] and a long trade
    [entry_price - atr * atr_multiplier]. *)
Theorem stop_loss_atr_precedence (self : RiskManager) (entry_price : float)
    (direction : string) (atr atr_multiplier : float) (custom_percentage : option float) :
  calculate_stop_loss self entry_price direction (Some atr) atr_multiplier custom_percentage
    = calculate_stop_loss self entry_price direction (Some atr) atr_multiplier None
  /\ (lower direction = "short" ->
      calculate_stop_loss self entry_price direction (Some atr) atr_multiplier custom_percentage
        = entry_price + atr * atr_multiplier)
  /\ (lower direction = "long" ->
      calculate_stop_loss self entry_price direction (Some atr) atr_multiplier custom_percentage
        = entry_price - atr * atr_multiplier).
Proof.
  unfold calculate_stop_loss. split; [reflexivity |].
  split; intros ->; reflexivity.
Qed.

Example stop_loss_atr_long :
  calculate_stop_loss default_risk_manager 150 "long" (Some 2.5) 2 (Some 0.5) = 145.
Proof. reflexivity. Qed.

Example stop_loss_atr_short :
  calculate_stop_loss default_risk_manager 150 "SHORT" (Some 2.5) 2 (Some 0.5) = 155.
Proof. reflexivity. Qed.

(** C8 as stated fails: with entry 1.0, stop 0.9 and ratio 3 the long
    target lies 0.2999999999999998 above the entry and the short target
    0.29999999999999993 below it, because [1 + reward] and [1 - reward]
    round differently. *)
Lemma take_profit_not_symmetric :
  abs (1 - PyFloat.lit_0_9) = abs (1 - PyFloat.lit_0_9) /\
  calculate_take_profit 1 PyFloat.lit_0_9 "long" 3 - 1 = 0x1.3333333333330p-2 /\
  1 - calculate_take_profit 1 PyFloat.lit_0_9 "short" 3 = 0x1.3333333333332p-2 /\
  calculate_take_profit 1 PyFloat.lit_0_9 "long" 3 - 1
    <> 1 - calculate_take_profit 1 PyFloat.lit_0_9 "short" 3.
Proof.
  do 3 (split; [reflexivity |]).
  apply FloatFacts.float_neq. reflexivity.
Qed.

(** C8, amended. When [|entry - stop|] is the same in both calls, both use
    the same reward [|entry - stop| * r]: the long target is the float
    [entry + reward] and the short target the float [entry - reward].
    Whenever neither of the two is rounded, the distance from the entry to
    the long target and the distance from the short target to the entry
    are both exactly the reward, and so equal. *)
Theorem take_profit_symmetric_when_exact
    (entry_price stop_long stop_short risk_reward_ratio : float) (E W : Z) :
  abs (entry_price - stop_long) = abs (entry_price - stop_short) ->
  let reward := abs (entry_price - stop_long) * risk_reward_ratio in
  let long_target := calculate_take_profit entry_price stop_long "long" risk_reward_ratio in
  let short_target :=
    calculate_take_profit entry_price stop_short "short" risk_reward_ratio in
  exact entry_price = Some E ->
  exact reward = Some W ->
  exact (entry_price + reward) = Some (E + W)%Z ->
  exact (entry_price - reward) = Some (E - W)%Z ->
  long_target = entry_price + reward /\
  short_target = entry_price - reward /\
  exact (long_target - entry_price) = Some W /\
  exact (entry_price - short_target) = Some W /\
  (long_target - entry_price =? entry_price - short_target) = true.
Proof.
  intros Hrisk reward long_target short_target He Hw Hadd Hsub.
  assert (Hlong : long_target = entry_price + reward) by reflexivity.
  assert (Hshort : short_target = entry_price - reward).
  { unfold short_target, calculate_take_profit. by rewrite <- Hrisk. }
  assert (Hdl : exact (long_target - entry_price) = Some W).
  { rewrite Hlong. replace (Some W) with (Some (E + W - E)%Z) by (f_equal; lia).
    apply (FloatExact.sub_exact _ _ reward); [done | done |].
    rewrite Hw. f_equal. lia. }
  assert (Hds : exact (entry_price - short_target) = Some W).
  { rewrite Hshort. replace (Some W) with (Some (E - (E - W))%Z) by (f_equal; lia).
    apply (FloatExact.sub_exact _ _ reward); [done | done |].
    rewrite Hw. f_equal. lia. }
  repeat split; try done. by apply (FloatExact.eqb_exact _ _ W).
Qed.

(** Entry 150, a long stop at 145 and a short stop at 155, ratio 2.5: the
    reward is 12.5 and the targets 162.5 and 137.5 are not rounded. *)
Lemma take_profit_symmetric_when_exact_witness :
  abs (150 - 145) = abs (150 - 155) /\
  exact 150 = Some (150 * 2 ^ 1074)%Z /\
  exact (abs (150 - 145) * 2.5) = Some (25 * 2 ^ 1073)%Z /\
  exact (150 + abs (150 - 145) * 2.5) = Some (150 * 2 ^ 1074 + 25 * 2 ^ 1073)%Z /\
  exact (150 - abs (150 - 145) * 2.5) = Some (150 * 2 ^ 1074 - 25 * 2 ^ 1073)%Z /\
  calculate_take_profit 150 145 "long" 2.5 = 150 + abs (150 - 145) * 2.5 /\
  calculate_take_profit 150 155 "short" 2.5 = 150 - abs (150 - 145) * 2.5 /\
  exact (calculate_take_profit 150 145 "long" 2.5 - 150) = Some (25 * 2 ^ 1073)%Z /\
  exact (150 - calculate_take_profit 150 155 "short" 2.5) = Some (25 * 2 ^ 1073)%Z /\
  (calculate_take_profit 150 145 "long" 2.5 - 150
     =? 150 - calculate_take_profit 150 155 "short" 2.5) = true.
Proof.
  split; [reflexivity |].
  assert (He : exact 150 = Some (150 * 2 ^ 1074)%Z) by (vm_compute; reflexivity).
  assert (Hw : exact (abs (150 - 145) * 2.5) = Some (25 * 2 ^ 1073)%Z)
    by (vm_compute; reflexivity).
  assert (Hadd : exact (150 + abs (150 - 145) * 2.5)
                 = Some (150 * 2 ^ 1074 + 25 * 2 ^ 1073)%Z) by (vm_compute; reflexivity).
  assert (Hsub : exact (150 - abs (150 - 145) * 2.5)
                 = Some (150 * 2 ^ 1074 - 25 * 2 ^ 1073)%Z) by (vm_compute; reflexivity).
  do 4 (split; [assumption |]).
  exact (take_profit_symmetric_when_exact 150 145 155 2.5 _ _ eq_refl He Hw Hadd Hsub).
Defined.

(** In the case above the long target is rounded: [1 + reward] is not the
    exact sum. *)
Example take_profit_long_target_rounded :
  let reward := abs (1 - PyFloat.lit_0_9) * 3 in
  exists E W sum,
    exact 1 = Some E /\ exact reward = Some W /\ exact (1 + reward) = Some sum /\
    sum <> (E + W)%Z.
Proof.
  intros reward. eexists _, _, _.
  do 3 (split; [vm_compute; reflexivity |]). by vm_compute.
Qed.

(** Where both roundings are exact the two distances agree. *)
Example take_profit_symmetric_exact :
  calculate_take_profit 150 145 "long" 2.5 - 150
    = 150 - calculate_take_profit 150 155 "short" 2.5.
Proof. reflexivity. Qed.
End ProtectivePrices.

(** * Risk metrics *)

Section Metrics.
Local Open Scope float_scope.

Lemma risk_metrics_try_malformed (df : DataFrame) :
  return_series df = None -> exists e, risk_metrics_try df = (df, Raises e).
Proof.
  unfold return_series, risk_metrics_try, mbind, py_bind, has_column, getitem.
  destruct (columns df !! "returns") as [[r | o] |] eqn:Hr; try done; intros H.
  - rewrite bool_decide_true by eauto. cbn. rewrite Hr. cbn. eauto.
  - rewrite bool_decide_false by (intros [? ?]; done). cbn.
    destruct (columns df !! "value") as [[v | o] |] eqn:Hv; try done; cbn; eauto.
Qed.

Lemma risk_metrics_try_numeric (df : DataFrame) (returns : list float) :
  return_series df = Some returns ->
  risk_metrics_try df = (assigned_frame df returns, Returns (metrics_of returns)).
Proof.
  unfold return_series, risk_metrics_try, assigned_frame, mbind, py_bind, has_column, getitem.
  destruct (columns df !! "returns") as [[r | o] |] eqn:Hr; try done.
  - intros [= ->]. rewrite bool_decide_true by eauto.
    rewrite (insert_id (columns df) "returns" _ Hr).
    cbn [mret py_ret]. rewrite Hr. reflexivity.
  - rewrite bool_decide_false by (intros [? ?]; done).
    destruct (columns df !! "value") as [[v | o] |] eqn:Hv; try done.
    intros [= <-]. cbn [mret py_ret numeric setitem columns index].
    rewrite lookup_insert_eq. reflexivity.
Qed.

Lemma calculate_risk_metrics_empty (df : DataFrame) :
  empty df = true -> calculate_risk_metrics df = (df, Returns ∅).
Proof.
  intros He. unfold calculate_risk_metrics, mbind, py_bind, is_empty. by rewrite He.
Qed.

Lemma calculate_risk_metrics_numeric (df : DataFrame) (returns : list float) :
  empty df = false -> return_series df = Some returns ->
  calculate_risk_metrics df = (assigned_frame df returns, Returns (metrics_of returns)).
Proof.
  intros He Hr. unfold calculate_risk_metrics, mbind, py_bind, is_empty, try_except.
  by rewrite He, (risk_metrics_try_numeric df returns Hr).
Qed.

Lemma calculate_risk_metrics_malformed (df : DataFrame) :
  empty df = false -> return_series df = None ->
  calculate_risk_metrics df = (df, Returns ∅).
Proof.
  intros He Hr. unfold calculate_risk_metrics, mbind, py_bind, is_empty, try_except.
  destruct (risk_metrics_try_malformed df Hr) as [e Hraise].
  by rewrite He, Hraise.
Qed.

Lemma metrics_of_max_drawdown (returns : list float) :
  metrics_of returns !! "max_drawdown" = Some (Pandas.min (drawdown_of returns)).
Proof.
  unfold metrics_of.
  repeat match goal with |- context [if ?b then _ else _] => destruct b end;
    by simplify_map_eq.
Qed.

Lemma metrics_of_sortino_ratio (returns : list float) :
  metrics_of returns !! "sortino_ratio" =
    Some (if (0 <? length (Pandas.negative returns))%nat
          then Pandas.mean returns / (Pandas.std (Pandas.negative returns) * Pandas.sqrt_252)
                 * Pandas.sqrt_252
          else infinity).
Proof.
  unfold metrics_of.
  repeat match goal with |- context [if ?b then _ else _] => destruct b end;
    by simplify_map_eq.
Qed.

Lemma metrics_of_not_empty (returns : list float) : size (metrics_of returns) <> 0%nat.
Proof.
  intros H%map_size_empty_inv.
  pose proof (metrics_of_max_drawdown returns) as Hdd. by rewrite H in Hdd.
Qed.

Lemma negative_nil (returns : list float) :
  Forall (λ r, (r <? 0) = false) returns -> Pandas.negative returns = [].
Proof.
  unfold Pandas.negative. induction 1 as [| r rs Hr _ IH]; [done |].
  cbn [List.filter]. by rewrite Hr.
Qed.

Lemma negative_cons (returns : list float) :
  Exists (λ r, (r <? 0) = true) returns ->
  (0 <? length (Pandas.negative returns))%nat = true.
Proof.
  unfold Pandas.negative. induction 1 as [r rs Hr | r rs _ IH]; cbn [List.filter].
  - by rewrite Hr.
  - by destruct (r <? 0).
Qed.

(** C2. [calculate_risk_metrics] always returns a mapping and never
    raises: the empty mapping for an empty frame, and the empty mapping
    whenever the computation inside raises. *)
Theorem risk_metrics_never_raises (df : DataFrame) :
  exists metrics,
    snd (calculate_risk_metrics df) = Returns metrics /\
    (empty df = true -> metrics = ∅) /\
    (forall e, snd (risk_metrics_try df) = Raises e -> metrics = ∅).
Proof.
  destruct (empty df) eqn:He.
  - exists ∅. by rewrite calculate_risk_metrics_empty.
  - destruct (return_series df) as [returns |] eqn:Hr.
    + exists (metrics_of returns).
      rewrite (calculate_risk_metrics_numeric df returns He Hr).
      rewrite (risk_metrics_try_numeric df returns Hr). by repeat split.
    + exists ∅. by rewrite calculate_risk_metrics_malformed.
Qed.

Example risk_metrics_empty_frame :
  calculate_risk_metrics (frame []) = (frame [], Returns ∅).
Proof. by apply calculate_risk_metrics_empty. Qed.

Example risk_metrics_malformed_frame :
  snd (risk_metrics_try malformed_frame) = Raises TypeError /\
  calculate_risk_metrics malformed_frame = (malformed_frame, Returns ∅).
Proof. split; [reflexivity | by apply calculate_risk_metrics_malformed]. Qed.

Example risk_metrics_missing_value_column :
  let df := {| index := [0%Z]; columns := {[ "date" := Object ["2023-01-01"] ]} |} in
  snd (risk_metrics_try df) = Raises (KeyError "value") /\
  calculate_risk_metrics df = (df, Returns ∅).
Proof. split; [reflexivity | by apply calculate_risk_metrics_malformed]. Qed.

(** C5. On a non-empty frame with a numeric return series the Sortino
    ratio is positive infinity when no return is negative, and otherwise
    [mean(r) / (std(negative returns) * sqrt(252)) * sqrt(252)]. *)
Theorem sortino_ratio_value (df : DataFrame) (returns : list float) :
  empty df = false ->
  return_series df = Some returns ->
  exists df' metrics,
    calculate_risk_metrics df = (df', Returns metrics) /\
    (Forall (λ r, (r <? 0) = false) returns ->
     metrics !! "sortino_ratio" = Some infinity) /\
    (Exists (λ r, (r <? 0) = true) returns ->
     metrics !! "sortino_ratio" =
       Some (Pandas.mean returns
               / (Pandas.std (Pandas.negative returns) * Pandas.sqrt_252)
               * Pandas.sqrt_252)).
Proof.
  intros He Hr. eexists _, _. split; [by apply calculate_risk_metrics_numeric |].
  rewrite metrics_of_sortino_ratio. split.
  - intros Hnone. by rewrite (negative_nil returns Hnone).
  - intros Hsome. by rewrite (negative_cons returns Hsome).
Qed.

(** A portfolio that never moves has zero variance and no negative
    return. *)
Lemma sortino_ratio_value_witness :
  empty flat_frame = false /\
  return_series flat_frame = Some [nan; 0; 0] /\
  Pandas.std [nan; 0; 0] = 0 /\
  Forall (λ r, (r <? 0) = false) [nan; 0; 0] /\
  exists df' metrics,
    calculate_risk_metrics flat_frame = (df', Returns metrics) /\
    metrics !! "sortino_ratio" = Some infinity.
Proof.
  do 3 (split; [reflexivity |]).
  assert (Hnone : Forall (λ r, (r <? 0) = false) [nan; 0; 0])
    by (repeat constructor).
  split; [exact Hnone |].
  destruct (sortino_ratio_value flat_frame [nan; 0; 0] eq_refl eq_refl)
    as (df' & metrics & Hrun & Hinf & _).
  exists df', metrics. split; [exact Hrun | exact (Hinf Hnone)].
Defined.

(** C10 as stated fails: for the portfolio values 64, 48, 24, 6 the mean
    return is -0.5 and the standard deviation of the negative returns
    0.25, so their quotient is -2, but the code's Sortino ratio is
    -1.9999999999999998. *)
Lemma sortino_factors_do_not_cancel :
  let returns := [nan; -0.25; -0.5; -0.75] in
  return_series falling_frame = Some returns /\
  Pandas.negative returns = [-0.25; -0.5; -0.75] /\
  Pandas.mean returns = -0.5 /\
  Pandas.std (Pandas.negative returns) = 0.25 /\
  (exists metrics,
     snd (calculate_risk_metrics falling_frame) = Returns metrics /\
     metrics !! "sortino_ratio" = Some (-0x1.fffffffffffffp+0) /\
     metrics !! "sortino_ratio"
       <> Some (Pandas.mean returns / Pandas.std (Pandas.negative returns))).
Proof.
  intros returns. do 4 (split; [reflexivity |]).
  exists (metrics_of returns).
  rewrite (calculate_risk_metrics_numeric falling_frame returns eq_refl eq_refl).
  split; [reflexivity |]. rewrite metrics_of_sortino_ratio.
  split; [reflexivity |].
  intros H. apply (FloatFacts.float_neq (-0x1.fffffffffffffp+0) (-2)); [reflexivity |].
  exact (f_equal (default nan) H).
Qed.

(** C10, amended. When a return is negative, the Sortino ratio is the
    float [(mean(r) / (std(negative returns) * sqrt(252))) * sqrt(252)],
    each operation rounded; the two factors need not cancel in it.  On the
    portfolio values 64, 48, 12 they do, and the ratio is
    [mean(r) / std(negative returns)]. *)
Theorem sortino_double_annualization :
  (forall (df : DataFrame) (returns : list float),
    empty df = false ->
    return_series df = Some returns ->
    Pandas.negative returns <> [] ->
    exists df' metrics,
      calculate_risk_metrics df = (df', Returns metrics) /\
      metrics !! "sortino_ratio" =
        Some (Pandas.mean returns
                / (Pandas.std (Pandas.negative returns) * Pandas.sqrt_252)
                * Pandas.sqrt_252))
  /\ (let returns := [nan; -0.25; -0.75] in
      return_series falling_frame' = Some returns /\
      snd (calculate_risk_metrics falling_frame')
        = Returns (metrics_of returns) /\
      metrics_of returns !! "sortino_ratio"
        = Some (Pandas.mean returns / Pandas.std (Pandas.negative returns))).
Proof.
  split.
  - intros df returns He Hr Hneg. eexists _, _.
    split; [by apply calculate_risk_metrics_numeric |].
    rewrite metrics_of_sortino_ratio.
    by destruct (Pandas.negative returns).
  - intros returns. split; [reflexivity |]. split.
    + by rewrite (calculate_risk_metrics_numeric falling_frame' returns eq_refl eq_refl).
    + rewrite metrics_of_sortino_ratio. reflexivity.
Qed.

Lemma sortino_double_annualization_witness :
  let returns := [nan; -0.25; -0.5; -0.75] in
  empty falling_frame = false /\
  return_series falling_frame = Some returns /\
  Pandas.negative returns <> [] /\
  exists df' metrics,
    calculate_risk_metrics falling_frame = (df', Returns metrics) /\
    metrics !! "sortino_ratio" =
      Some (-0.5 / (0.25 * Pandas.sqrt_252) * Pandas.sqrt_252).
Proof.
  intros returns. do 2 (split; [reflexivity |]).
  assert (Hneg : Pandas.negative returns <> []) by done.
  split; [exact Hneg |].
  exact (proj1 sortino_double_annualization falling_frame returns eq_refl eq_refl Hneg).
Defined.
End Metrics.

(** * The caller's frame and the portfolio check *)

Section PortfolioCheck.
Local Open Scope float_scope.
Import PyFloat.

Lemma check_portfolio_risk_frame (self : RiskManager) (df : DataFrame) :
  fst (check_portfolio_risk self df) = fst (calculate_risk_metrics df).
Proof.
  unfold check_portfolio_risk, mbind, py_bind.
  destruct (calculate_risk_metrics df) as [df' [metrics | e]]; [| done].
  case_bool_decide; [done |].
  destruct (metrics !! "max_drawdown") as [max_dd |]; [| done].
  by destruct (gtb (abs max_dd) (max_drawdown self)).
Qed.

Lemma assigned_frame_other (df : DataFrame) (returns : list float) (c : string) :
  c ∉ derived_columns -> columns (assigned_frame df returns) !! c = columns df !! c.
Proof.
  unfold derived_columns. intros Hc. cbn [assigned_frame columns].
  rewrite !lookup_insert_ne; [done | | | |]; intros <-; apply Hc; set_solver.
Qed.

Lemma assigned_frame_returns (df : DataFrame) (returns : list float) :
  columns (assigned_frame df returns) !! "returns" = Some (Float64 returns).
Proof. cbn [assigned_frame columns]. by simplify_map_eq. Qed.

(** C3 as stated fails: after the call the caller's frame has a
    [drawdown] column it did not have before. *)
Lemma risk_metrics_assign_columns :
  columns falling_frame !! "drawdown" = None /\
  columns (fst (calculate_risk_metrics falling_frame)) !! "drawdown"
    = Some (Float64 [nan; 0; -0.5; -0.875]) /\
  fst (calculate_risk_metrics falling_frame) <> falling_frame /\
  fst (check_portfolio_risk default_risk_manager falling_frame) <> falling_frame.
Proof.
  split; [reflexivity |].
  assert (Hrun : fst (calculate_risk_metrics falling_frame)
                 = assigned_frame falling_frame [nan; -0.25; -0.5; -0.75])
    by (by rewrite (calculate_risk_metrics_numeric falling_frame _ eq_refl eq_refl)).
  assert (Hdd : columns (fst (calculate_risk_metrics falling_frame)) !! "drawdown"
                = Some (Float64 [nan; 0; -0.5; -0.875])).
  { rewrite Hrun. cbn [assigned_frame columns]. rewrite lookup_insert_eq. reflexivity. }
  split; [exact Hdd |].
  assert (Hne : fst (calculate_risk_metrics falling_frame) <> falling_frame).
  { intros Heq. rewrite Heq in Hdd. discriminate Hdd. }
  split; [exact Hne |]. by rewrite check_portfolio_risk_frame.
Qed.

(** C3, amended. [calculate_risk_metrics] and [check_portfolio_risk] leave
    the index of the caller's frame and every column other than
    [returns], [cumulative_returns], [cumulative_max] and [drawdown] as
    they were, and a [returns] column that was there is kept; on a
    non-empty frame with a numeric return series they assign these four
    derived series as columns of the caller's frame, and an empty or
    malformed frame is left as it was. *)
Theorem risk_metrics_frame_effect (self : RiskManager) (df : DataFrame) :
  let df' := fst (calculate_risk_metrics df) in
  index df' = index df /\
  (forall c, c ∉ derived_columns -> columns df' !! c = columns df !! c) /\
  (is_Some (columns df !! "returns") ->
   columns df' !! "returns" = columns df !! "returns") /\
  (forall returns, empty df = false -> return_series df = Some returns ->
   df' = assigned_frame df returns) /\
  (empty df = true \/ return_series df = None -> df' = df) /\
  fst (check_portfolio_risk self df) = df'.
Proof.
  intros df'. subst df'. rewrite check_portfolio_risk_frame.
  destruct (empty df) eqn:He.
  { rewrite calculate_risk_metrics_empty by done. by repeat split. }
  destruct (return_series df) as [returns |] eqn:Hr.
  - rewrite (calculate_risk_metrics_numeric df returns He Hr). cbn [fst].
    repeat split.
    + intros c Hc. by apply assigned_frame_other.
    + intros [s Hs]. rewrite assigned_frame_returns, Hs.
      unfold return_series in Hr. rewrite Hs in Hr. destruct s; congruence.
    + by intros ? _ [= ->].
    + by intros [? | ?].
  - rewrite calculate_risk_metrics_malformed by done. by repeat split.
Qed.

Lemma string_app_assoc (s1 s2 s3 : string) : (s1 +:+ s2) +:+ s3 = s1 +:+ s2 +:+ s3.
Proof.
  induction s1 as [| a s1 IH]; [done |].
  change (String a ((s1 +:+ s2) +:+ s3) = String a (s1 +:+ s2 +:+ s3)). by rewrite IH.
Qed.

Lemma drawdown_warning_contains (observed limit : float) :
  contains (format_percent observed) (drawdown_warning observed limit) /\
  contains (format_percent limit) (drawdown_warning observed limit).
Proof.
  unfold contains, drawdown_warning. split.
  - by eexists _, _.
  - exists ("Maximum drawdown (" +:+ format_percent observed +:+ ") exceeds limit ("), ")".
    by rewrite !string_app_assoc.
Qed.

(** C4. When the metrics hold a maximum drawdown whose absolute value is
    above the configured limit, the check is not acceptable and its one
    warning contains the observed value and the limit, each formatted as a
    percentage; when it is not above the limit, the check is acceptable
    and there is no warning. *)
Theorem check_portfolio_risk_drawdown (self : RiskManager) (df df' : DataFrame)
    (metrics : gmap string float) (max_dd : float) :
  calculate_risk_metrics df = (df', Returns metrics) ->
  metrics !! "max_drawdown" = Some max_dd ->
  (gtb (abs max_dd) (max_drawdown self) = true ->
   exists warning,
     check_portfolio_risk self df
       = (df', Returns (false, RiskResult false metrics [warning])) /\
     contains (format_percent (abs max_dd)) warning /\
     contains (format_percent (max_drawdown self)) warning) /\
  (gtb (abs max_dd) (max_drawdown self) = false ->
   check_portfolio_risk self df = (df', Returns (true, RiskResult true metrics []))).
Proof.
  intros Hrun Hdd. unfold check_portfolio_risk, mbind, py_bind. rewrite Hrun.
  rewrite bool_decide_false, Hdd.
  - split; intros ->; [| done].
    eexists. split; [done |]. apply drawdown_warning_contains.
  - intros Hsize%map_size_empty_inv. by rewrite Hsize in Hdd.
Qed.

Lemma check_portfolio_risk_drawdown_witness :
  let returns := [nan; -0.25; -0.5; -0.75] in
  calculate_risk_metrics falling_frame
    = (assigned_frame falling_frame returns, Returns (metrics_of returns)) /\
  metrics_of returns !! "max_drawdown" = Some (-0.875) /\
  gtb (abs (-0.875)) (max_drawdown default_risk_manager) = true /\
  format_percent (abs (-0.875)) = "87.50%" /\
  format_percent (max_drawdown default_risk_manager) = "15.00%" /\
  exists warning,
    check_portfolio_risk default_risk_manager falling_frame
      = (assigned_frame falling_frame returns,
         Returns (false, RiskResult false (metrics_of returns) [warning])) /\
    contains "87.50%" warning /\ contains "15.00%" warning.
Proof.
  intros returns.
  assert (Hrun : calculate_risk_metrics falling_frame
                 = (assigned_frame falling_frame returns, Returns (metrics_of returns)))
    by (by apply calculate_risk_metrics_numeric).
  assert (Hdd : metrics_of returns !! "max_drawdown" = Some (-0.875))
    by (by rewrite metrics_of_max_drawdown).
  split; [exact Hrun |]. split; [exact Hdd |]. do 3 (split; [reflexivity |]).
  exact (proj1 (check_portfolio_risk_drawdown default_risk_manager falling_frame _ _
                  (-0.875) Hrun Hdd) eq_refl).
Defined.

Example check_portfolio_risk_falling :
  snd (check_portfolio_risk default_risk_manager falling_frame)
    = Returns (false,
               RiskResult false (metrics_of [nan; -0.25; -0.5; -0.75])
                 ["Maximum drawdown (87.50%) exceeds limit (15.00%)"]).
Proof.
  unfold check_portfolio_risk, mbind, py_bind.
  rewrite (calculate_risk_metrics_numeric falling_frame _ eq_refl eq_refl).
  rewrite bool_decide_false by apply metrics_of_not_empty.
  rewrite metrics_of_max_drawdown. reflexivity.
Qed.

Example check_portfolio_risk_flat :
  snd (check_portfolio_risk default_risk_manager flat_frame)
    = Returns (true, RiskResult true (metrics_of [nan; 0; 0]) []).
Proof.
  unfold check_portfolio_risk, mbind, py_bind.
  rewrite (calculate_risk_metrics_numeric flat_frame _ eq_refl eq_refl).
  rewrite bool_decide_false by apply metrics_of_not_empty.
  rewrite metrics_of_max_drawdown. reflexivity.
Qed.

Example check_portfolio_risk_no_metrics :
  check_portfolio_risk default_risk_manager malformed_frame
    = (malformed_frame, Returns (false, NoResult)).
Proof.
  unfold check_portfolio_risk, mbind, py_bind.
  by rewrite (calculate_risk_metrics_malformed malformed_frame eq_refl eq_refl).
Qed.
End PortfolioCheck.

(** * More on position sizing *)

Module FloatSign.
Import FloatFacts.
Local Open Scope float_scope.

Lemma ltb_zero (x : float) : (x <? 0) = negb (not_negative_sf (Prim2SF x)).
Proof.
  rewrite ltb_spec. change (Prim2SF 0) with (S754_zero false).
  by destruct (Prim2SF x) as [s | [] | | [] m e].
Qed.

Lemma leb_zero (x : float) : (0 <=? x) = true -> not_negative_sf (Prim2SF x) = true.
Proof.
  rewrite leb_spec. change (Prim2SF 0) with (S754_zero false).
  by destruct (Prim2SF x) as [s | [] | | [] m e].
Qed.

Lemma ltb_zero_positive (x : float) :
  (0 <? x) = true ->
  not_negative_sf (Prim2SF x) = true /\ nonzero_sf (Prim2SF x) = true.
Proof.
  rewrite ltb_spec. change (Prim2SF 0) with (S754_zero false).
  by destruct (Prim2SF x) as [s | [] | | [] m e].
Qed.

Lemma binary_round_aux_sign (m e : Z) (l : location) :
  not_negative_sf (binary_round_aux prec emax false m e l) = true.
Proof.
  unfold binary_round_aux.
  destruct (shr_fexp prec emax m e l) as [mrs1 e1].
  destruct (shr_fexp prec emax _ e1 loc_Exact) as [mrs2 e2].
  destruct (shr_m mrs2); [done | | done].
  by destruct (e2 <=? emax - prec)%Z.
Qed.

Lemma SFmul_sign (x y : spec_float) :
  not_negative_sf x = true -> not_negative_sf y = true ->
  not_negative_sf (SF64mul x y) = true.
Proof.
  destruct x as [sx | [] | | [] mx ex], y as [sy | [] | | [] my ey]; try done;
    intros _ _; apply binary_round_aux_sign.
Qed.

Lemma SFdiv_sign (x y : spec_float) :
  not_negative_sf x = true -> not_negative_sf y = true -> nonzero_sf y = true ->
  not_negative_sf (SF64div x y) = true.
Proof.
  destruct x as [sx | [] | | [] mx ex], y as [sy | [] | | [] my ey]; try done.
  intros _ _ _. unfold SF64div, SFdiv.
  destruct (SFdiv_core_binary prec emax (Z.pos mx) ex (Z.pos my) ey) as [[mz ez] lz].
  apply binary_round_aux_sign.
Qed.

Lemma mul_not_negative (x y : float) :
  not_negative_sf (Prim2SF x) = true -> not_negative_sf (Prim2SF y) = true ->
  not_negative_sf (Prim2SF (x * y)) = true.
Proof. rewrite mul_spec. apply SFmul_sign. Qed.

Lemma div_not_negative (x y : float) :
  not_negative_sf (Prim2SF x) = true -> not_negative_sf (Prim2SF y) = true ->
  nonzero_sf (Prim2SF y) = true ->
  not_negative_sf (Prim2SF (x / y)) = true.
Proof. rewrite div_spec. apply SFdiv_sign. Qed.

Lemma abs_not_negative (x : float) : not_negative_sf (Prim2SF (abs x)) = true.
Proof. rewrite abs_spec. by destruct (Prim2SF x) as [s | s | | s m e]. Qed.

Lemma eqb_zero (x : float) : (x =? 0) = negb (nonzero_sf (Prim2SF x)).
Proof.
  rewrite FloatAxioms.eqb_spec. change (Prim2SF 0) with (S754_zero false).
  by destruct (Prim2SF x) as [s | [] | | [] m e].
Qed.
End FloatSign.

Section PositionSizingEdges.
Local Open Scope float_scope.
Import PyFloat.

Lemma position_size_without_entry_value (self : RiskManager) (portfolio_value : float)
    (risk_per_trade stop_loss_price : option float) :
  calculate_position_size self portfolio_value risk_per_trade None stop_loss_price
    = Returns (portfolio_value * max_position_size self).
Proof. unfold calculate_position_size. by destruct stop_loss_price. Qed.

Lemma not_negative_or_nan (x : float) :
  FloatFacts.not_negative_sf (Prim2SF x) = true -> (0 <=? x) = true \/ is_nan x = true.
Proof.
  unfold is_nan. rewrite leb_spec, FloatAxioms.eqb_spec.
  change (Prim2SF 0) with (S754_zero false).
  destruct (Prim2SF x) as [s | [] | | [] m e]; try done; intros _;
    first [by left | by right].
Qed.

Lemma position_size_zero_entry (self : RiskManager) (portfolio_value : float)
    (risk_per_trade : option float) (e : float) (stop_loss_price : option float) :
  (e =? 0) = true ->
  calculate_position_size self portfolio_value risk_per_trade (Some e) stop_loss_price
    = Raises ZeroDivisionError.
Proof.
  intros He. unfold calculate_position_size, truediv.
  destruct stop_loss_price as [s |]; cbn [mbind outcome_bind]; rewrite ?He; [| done].
  destruct (abs (e - s) =? 0) eqn:Hrisk; rewrite ?Hrisk; cbn [mbind outcome_bind];
    by rewrite ?He.
Qed.

Lemma position_size_nonzero_entry (self : RiskManager) (portfolio_value : float)
    (risk_per_trade : option float) (e : float) (stop_loss_price : option float) :
  (e =? 0) = false ->
  exists units,
    calculate_position_size self portfolio_value risk_per_trade (Some e) stop_loss_price
      = Returns units.
Proof.
  intros He. unfold calculate_position_size, truediv.
  destruct stop_loss_price as [s |]; cbn [mbind outcome_bind]; rewrite ?He;
    [| by eexists].
  destruct (abs (e - s) =? 0) eqn:Hrisk; rewrite ?Hrisk; cbn [mbind outcome_bind];
    rewrite ?He; by eexists.
Qed.

(** X1. [calculate_position_size] raises exactly when an entry price is
    passed and is zero; what it raises is [ZeroDivisionError]. *)
Theorem position_size_raises_iff_zero_entry (self : RiskManager) (portfolio_value : float)
    (risk_per_trade entry_price stop_loss_price : option float) :
  (calculate_position_size self portfolio_value risk_per_trade entry_price stop_loss_price
     = Raises ZeroDivisionError
   <-> exists e, entry_price = Some e /\ (e =? 0) = true) /\
  (forall x,
     calculate_position_size self portfolio_value risk_per_trade entry_price stop_loss_price
       = Raises x -> x = ZeroDivisionError).
Proof.
  destruct entry_price as [e |].
  - destruct (e =? 0) eqn:He.
    + rewrite position_size_zero_entry by done. split; [| by intros x [= <-]].
      split; [eauto | done].
    + destruct (position_size_nonzero_entry self portfolio_value risk_per_trade e
                  stop_loss_price He) as [units ->].
      split; [| by intros x [=]].
      split; [done |]. intros (e' & [= <-] & He'). congruence.
  - rewrite position_size_without_entry_value. split; [| by intros x [=]].
    split; [done | by intros (e' & [=] & _)].
Qed.

(** X2. With a portfolio value, a maximum position size and a risk per
    trade that are at least zero, and an entry price above zero (or none),
    a position size is returned and it is never a negative number: it is
    at least zero, or it is [nan] (as when an overflow leads to
    [inf / inf]). *)
Theorem position_size_not_negative (self : RiskManager) (portfolio_value : float)
    (risk_per_trade : option float) (entry_price : float) (stop_loss_price : option float) :
  (0 <=? portfolio_value) = true ->
  (0 <=? max_position_size self) = true ->
  (0 <=? default (max_position_size self) risk_per_trade) = true ->
  (0 <? entry_price) = true ->
  (exists units,
     calculate_position_size self portfolio_value risk_per_trade
       (Some entry_price) stop_loss_price = Returns units /\
     ((0 <=? units) = true \/ is_nan units = true)) /\
  (exists value,
     calculate_position_size self portfolio_value risk_per_trade None stop_loss_price
       = Returns value /\
     ((0 <=? value) = true \/ is_nan value = true)).
Proof.
  intros Hpv%FloatSign.leb_zero Hmps%FloatSign.leb_zero Hrpt%FloatSign.leb_zero He.
  pose proof (FloatFacts.positive_not_zero _ He) as Hne.
  apply FloatSign.ltb_zero_positive in He as [Hes Hez].
  assert (Hfallback :
    FloatFacts.not_negative_sf
      (Prim2SF (portfolio_value * max_position_size self / entry_price)) = true).
  { apply FloatSign.div_not_negative; [| done | done].
    by apply FloatSign.mul_not_negative. }
  split.
  - unfold calculate_position_size, truediv.
    destruct stop_loss_price as [s |]; cbn [mbind outcome_bind].
    + destruct (abs (entry_price - s) =? 0) eqn:Hrisk; rewrite ?Hrisk, Hne;
        cbn [mbind outcome_bind]; eexists; (split; [reflexivity |]);
        apply not_negative_or_nan; [done |].
      apply FloatSign.div_not_negative; [| done | done].
      apply FloatSign.div_not_negative.
      * by apply FloatSign.mul_not_negative.
      * apply FloatSign.abs_not_negative.
      * rewrite FloatSign.eqb_zero in Hrisk. by apply negb_false_iff in Hrisk.
    + rewrite Hne. cbn [mbind outcome_bind]. eexists. split; [reflexivity |].
      by apply not_negative_or_nan.
  - eexists. split; [by apply position_size_without_entry_value |].
    apply not_negative_or_nan. by apply FloatSign.mul_not_negative.
Qed.

(** The result is [nan] on finite inputs when the risked amount and the
    risk per unit both overflow. *)
Example position_size_nan :
  calculate_position_size default_risk_manager 0x1p+1023 (Some 10)
      (Some 0x1p+1023) (Some (-0x1p+1023))
    = Returns nan.
Proof. reflexivity. Qed.
End PositionSizingEdges.

Section DegenerateStop.
Local Open Scope float_scope.
Import PyFloat.

Lemma position_size_not_negative_witness :
  (0 <=? 100000) = true /\ (0 <=? lit_0_02) = true /\ (0 <? 150) = true /\
  exists units,
    calculate_position_size default_risk_manager 100000 None (Some 150) (Some 145)
      = Returns units /\
    ((0 <=? units) = true \/ is_nan units = true).
Proof.
  do 3 (split; [reflexivity |]).
  exact (proj1 (position_size_not_negative default_risk_manager 100000 None 150 (Some 145)
                  eq_refl eq_refl eq_refl eq_refl)).
Defined.

(** X3. For a finite entry price, a stop-loss price equal to the entry
    price gives the same result as no stop-loss price at all, whatever the
    risk per trade in either call; this includes the zero entry price, on
    which both calls raise. *)
Theorem position_size_stop_at_entry_as_no_stop (self : RiskManager) (portfolio_value : float)
    (risk_per_trade risk_per_trade' : option float) (entry_price : float) :
  is_finite entry_price = true ->
  calculate_position_size self portfolio_value risk_per_trade
      (Some entry_price) (Some entry_price)
    = calculate_position_size self portfolio_value risk_per_trade' (Some entry_price) None.
Proof.
  intros Hfin. unfold calculate_position_size.
  rewrite (FloatFacts.sub_diag_abs_zero entry_price Hfin).
  by destruct (truediv _ entry_price).
Qed.

Lemma position_size_stop_at_entry_as_no_stop_witness :
  is_finite 150 = true /\
  calculate_position_size default_risk_manager 100000 (Some 0.5) (Some 150) (Some 150)
    = calculate_position_size default_risk_manager 100000 None (Some 150) None.
Proof.
  split; [reflexivity |].
  exact (position_size_stop_at_entry_as_no_stop default_risk_manager 100000 (Some 0.5) None
           150 eq_refl).
Defined.

Lemma finite_cases (x : float) :
  is_finite x = true ->
  (exists s, Prim2SF x = S754_zero s) \/ (exists s m e, Prim2SF x = S754_finite s m e).
Proof. apply FloatFacts.is_finite_SF. Qed.

Lemma positive_finite_cases (x : float) :
  (0 <? x) = true -> is_finite x = true -> exists m e, Prim2SF x = S754_finite false m e.
Proof.
  intros Hpos [[s Hx] | (s & m & e & Hx)]%finite_cases; revert Hpos;
    rewrite ltb_spec, Hx; change (Prim2SF 0) with (S754_zero false).
  - done.
  - destruct s; [done | eauto].
Qed.

Lemma risk_of_stop_at_entry (x : float) :
  is_finite x = true -> Prim2SF (abs (x - x)) = S754_zero false.
Proof.
  intros [[s Hx] | (s & m & e & Hx)]%finite_cases; rewrite abs_spec, sub_spec, Hx.
  - by destruct s.
  - by rewrite FloatFacts.SFsub_diag_finite.
Qed.

Lemma zero_reward (z r : float) :
  Prim2SF z = S754_zero false -> is_finite r = true -> exists s, Prim2SF (z * r) = S754_zero s.
Proof.
  intros Hz [[s Hr] | (s & m & e & Hr)]%finite_cases; rewrite mul_spec, Hz, Hr; by eexists.
Qed.

Lemma add_zero (x z : float) (m : positive) (e : Z) (s : bool) :
  Prim2SF x = S754_finite false m e -> Prim2SF z = S754_zero s ->
  x + z = x /\ x - z = x.
Proof.
  intros Hx Hz. split; apply Prim2SF_inj.
  - by rewrite add_spec, Hx, Hz.
  - by rewrite sub_spec, Hx, Hz.
Qed.

(** X4. With a stop-loss price equal to a finite entry price above zero,
    the take-profit price is the entry price itself, long or short, for
    every finite risk-reward ratio. *)
Theorem take_profit_stop_at_entry (entry_price : float) (direction : string)
    (risk_reward_ratio : float) :
  (0 <? entry_price) = true ->
  is_finite entry_price = true ->
  is_finite risk_reward_ratio = true ->
  calculate_take_profit entry_price entry_price direction risk_reward_ratio = entry_price.
Proof.
  intros Hpos Hfin Hr. unfold calculate_take_profit.
  destruct (positive_finite_cases entry_price Hpos Hfin) as (m & e & He).
  destruct (zero_reward _ risk_reward_ratio (risk_of_stop_at_entry entry_price Hfin) Hr)
    as [s Hreward].
  destruct (add_zero entry_price _ m e s He Hreward) as [Hadd Hsub].
  by destruct (String.eqb (lower direction) "long").
Qed.

Lemma take_profit_stop_at_entry_witness :
  (0 <? 150) = true /\ is_finite 150 = true /\ is_finite 2.5 = true /\
  calculate_take_profit 150 150 "short" 2.5 = 150.
Proof.
  do 3 (split; [reflexivity |]).
  exact (take_profit_stop_at_entry 150 "short" 2.5 eq_refl eq_refl eq_refl).
Defined.
End DegenerateStop.

Section Direction.
Local Open Scope float_scope.

Lemma ascii_lower_idempotent (c : ascii) : ascii_lower (ascii_lower c) = ascii_lower c.
Proof. by destruct c as [[] [] [] [] [] [] [] []]. Qed.

Lemma lower_idempotent (s : string) : lower (lower s) = lower s.
Proof.
  induction s as [| c s IH]; [done |].
  cbn [lower]. by rewrite ascii_lower_idempotent, IH.
Qed.

(** X5. The direction is read without regard to case: a direction and its
    lower-case form give the same stop-loss price and the same take-profit
    price. *)
Theorem direction_case_insensitive (self : RiskManager) (entry_price : float)
    (direction : string) (atr : option float) (atr_multiplier : float)
    (custom_percentage : option float) (stop_loss_price risk_reward_ratio : float) :
  calculate_stop_loss self entry_price direction atr atr_multiplier custom_percentage
    = calculate_stop_loss self entry_price (lower direction) atr atr_multiplier
        custom_percentage /\
  calculate_take_profit entry_price stop_loss_price direction risk_reward_ratio
    = calculate_take_profit entry_price stop_loss_price (lower direction) risk_reward_ratio.
Proof.
  unfold calculate_stop_loss, calculate_take_profit. by rewrite lower_idempotent.
Qed.

(** X6. A direction that is not ['long'] in any case is treated as
    ['short'], by both the stop-loss and the take-profit calculation;
    nothing checks that it is ['short']. *)
Theorem direction_other_than_long_is_short (self : RiskManager) (entry_price : float)
    (direction : string) (atr : option float) (atr_multiplier : float)
    (custom_percentage : option float) (stop_loss_price risk_reward_ratio : float) :
  lower direction <> "long" ->
  calculate_stop_loss self entry_price direction atr atr_multiplier custom_percentage
    = calculate_stop_loss self entry_price "short" atr atr_multiplier custom_percentage /\
  calculate_take_profit entry_price stop_loss_price direction risk_reward_ratio
    = calculate_take_profit entry_price stop_loss_price "short" risk_reward_ratio.
Proof.
  intros Hdir%String.eqb_neq. unfold calculate_stop_loss, calculate_take_profit.
  by rewrite Hdir.
Qed.

Lemma direction_other_than_long_is_short_witness :
  lower "Buy" <> "long" /\
  calculate_stop_loss default_risk_manager 150 "Buy" (Some 2.5) 2 None = 155 /\
  calculate_take_profit 150 155 "Buy" 2.5 = 137.5.
Proof.
  assert (Hdir : lower "Buy" <> "long") by done.
  split; [exact Hdir |].
  destruct (direction_other_than_long_is_short default_risk_manager 150 "Buy" (Some 2.5) 2
              None 155 2.5 Hdir) as [-> ->].
  split; reflexivity.
Defined.
End Direction.

(** * More on the risk metrics and the caller's frame *)

Section MetricsEdges.
Local Open Scope float_scope.
Import PyFloat.

(** The five metric names. *)
Lemma metrics_of_dom (returns : list float) :
  dom (metrics_of returns)
    = list_to_set ["volatility"; "max_drawdown"; "sharpe_ratio"; "sortino_ratio";
                   "calmar_ratio"].
Proof.
  unfold metrics_of.
  repeat match goal with |- context [if ?b then _ else _] => destruct b end;
    rewrite !dom_insert_L, dom_empty_L; set_solver.
Qed.

(** X7. The mapping returned by [calculate_risk_metrics] is all or
    nothing: it has exactly the five keys [volatility], [max_drawdown],
    [sharpe_ratio], [sortino_ratio] and [calmar_ratio], or no key at all,
    the latter exactly when the frame is empty or has no numeric return
    series. *)
Theorem risk_metrics_all_or_nothing (df : DataFrame) :
  exists metrics,
    snd (calculate_risk_metrics df) = Returns metrics /\
    (dom metrics = ∅ \/
     dom metrics = list_to_set ["volatility"; "max_drawdown"; "sharpe_ratio";
                                "sortino_ratio"; "calmar_ratio"]) /\
    (dom metrics = ∅ <-> empty df = true \/ return_series df = None).
Proof.
  destruct (empty df) eqn:He.
  { exists ∅. rewrite calculate_risk_metrics_empty by done.
    rewrite dom_empty_L. split; [done |]. split; [by left |]. split; auto. }
  destruct (return_series df) as [returns |] eqn:Hr.
  - exists (metrics_of returns).
    rewrite (calculate_risk_metrics_numeric df returns He Hr), metrics_of_dom.
    split; [done |]. split; [by right |].
    split; [set_solver | by intros [? | ?]].
  - exists ∅. rewrite calculate_risk_metrics_malformed by done.
    rewrite dom_empty_L. split; [done |]. split; [by left |]. split; auto.
Qed.

Lemma assigned_frame_not_empty (df : DataFrame) (returns : list float) :
  empty df = false -> empty (assigned_frame df returns) = false.
Proof.
  unfold empty. intros [Hi _]%orb_false_elim. cbn [assigned_frame index columns].
  rewrite Hi. cbn [orb]. apply bool_decide_eq_false.
  intros Hsize%map_size_empty_inv. by apply insert_non_empty in Hsize.
Qed.

Lemma assigned_frame_return_series (df : DataFrame) (returns : list float) :
  return_series (assigned_frame df returns) = Some returns.
Proof. unfold return_series. by rewrite assigned_frame_returns. Qed.

Lemma assigned_frame_again (df : DataFrame) (returns : list float) :
  assigned_frame (assigned_frame df returns) returns = assigned_frame df returns.
Proof.
  unfold assigned_frame. cbn [index columns]. f_equal.
  rewrite (insert_id _ "returns") by by simplify_map_eq.
  rewrite (insert_id _ "cumulative_returns") by by simplify_map_eq.
  rewrite (insert_id _ "cumulative_max") by by simplify_map_eq.
  by rewrite insert_insert_eq.
Qed.

(** X8. A second call on the frame a first call has left gives the same
    metrics and leaves that frame as it is. *)
Theorem risk_metrics_second_call (df : DataFrame) (returns : list float) :
  empty df = false ->
  return_series df = Some returns ->
  calculate_risk_metrics (fst (calculate_risk_metrics df))
    = (fst (calculate_risk_metrics df), snd (calculate_risk_metrics df)).
Proof.
  intros He Hr. rewrite (calculate_risk_metrics_numeric df returns He Hr). cbn [fst snd].
  rewrite (calculate_risk_metrics_numeric _ returns); [by rewrite assigned_frame_again | |].
  - by apply assigned_frame_not_empty.
  - apply assigned_frame_return_series.
Qed.

Lemma risk_metrics_second_call_witness :
  empty falling_frame = false /\
  return_series falling_frame = Some [nan; -0.25; -0.5; -0.75] /\
  calculate_risk_metrics (fst (calculate_risk_metrics falling_frame))
    = (fst (calculate_risk_metrics falling_frame), snd (calculate_risk_metrics falling_frame)).
Proof.
  do 2 (split; [reflexivity |]).
  exact (risk_metrics_second_call falling_frame _ eq_refl eq_refl).
Defined.

(** X9. Once a call has stored the [returns] column, later calls read it
    and not the [value] column: after the caller assigns a new [value]
    column, the metrics are still those of the old values. *)
Theorem risk_metrics_keep_stored_returns (df : DataFrame) (returns : list float)
    (new_value : Series) :
  empty df = false ->
  return_series df = Some returns ->
  let df1 := fst (calculate_risk_metrics df) in
  let df2 := fst (setitem "value" new_value df1) in
  snd (calculate_risk_metrics df2) = snd (calculate_risk_metrics df).
Proof.
  intros He Hr df1 df2. subst df1 df2.
  rewrite (calculate_risk_metrics_numeric df returns He Hr). cbn [fst snd].
  rewrite (calculate_risk_metrics_numeric _ returns); [done | |].
  - pose proof (assigned_frame_not_empty df returns He) as Hne. revert Hne.
    unfold empty, setitem. cbn [fst index columns].
    intros [Hi _]%orb_false_elim. rewrite Hi. cbn [orb]. apply bool_decide_eq_false.
    intros Hsize%map_size_empty_inv. by apply insert_non_empty in Hsize.
  - unfold return_series, setitem. cbn [fst columns].
    rewrite lookup_insert_ne by done. by rewrite assigned_frame_returns.
Qed.

Lemma risk_metrics_keep_stored_returns_witness :
  empty falling_frame = false /\
  return_series falling_frame = Some [nan; -0.25; -0.5; -0.75] /\
  snd (calculate_risk_metrics
         (fst (setitem "value" (Float64 [64; 128; 256; 512])
                 (fst (calculate_risk_metrics falling_frame)))))
    = snd (calculate_risk_metrics falling_frame).
Proof.
  do 2 (split; [reflexivity |]).
  exact (risk_metrics_keep_stored_returns falling_frame _ (Float64 [64; 128; 256; 512])
           eq_refl eq_refl).
Defined.

Lemma pct_change_from_length (prev : float) (xs : list float) :
  length (Pandas.pct_change_from prev xs) = length xs.
Proof. revert prev. induction xs as [| x xs IH]; intros prev; cbn; by rewrite ?IH. Qed.

Lemma pct_change_length (xs : list float) : length (Pandas.pct_change xs) = length xs.
Proof. destruct xs as [| x xs]; cbn; by rewrite ?pct_change_from_length. Qed.

Lemma cum_from_length (op : float -> float -> float) (acc : float) (xs : list float) :
  length (Pandas.cum_from op acc xs) = length xs.
Proof.
  revert acc. induction xs as [| x xs IH]; intros acc; [done |].
  cbn [Pandas.cum_from]. destruct (is_nan x); cbn [length]; by rewrite IH.
Qed.

Lemma drawdown_of_length (returns : list float) :
  length (drawdown_of returns) = length returns.
Proof.
  unfold drawdown_of, Pandas.cummax, Pandas.cumprod.
  rewrite length_zip_with_l_eq; rewrite !cum_from_length; by rewrite ?length_map.
Qed.

(** X10. When the frame has a numeric [value] column with one value per
    row and no [returns] column, each of the four columns the call assigns
    is numeric and has one value per row as well. *)
Theorem risk_metrics_columns_aligned (df : DataFrame) (value : list float) :
  empty df = false ->
  columns df !! "returns" = None ->
  columns df !! "value" = Some (Float64 value) ->
  length value = length (index df) ->
  let df' := fst (calculate_risk_metrics df) in
  Forall (λ c, exists xs, columns df' !! c = Some (Float64 xs) /\
                          length xs = length (index df'))
    derived_columns.
Proof.
  intros He Hr Hv Hlen df'. subst df'.
  assert (Hseries : return_series df = Some (Pandas.pct_change value))
    by (unfold return_series; by rewrite Hr, Hv).
  rewrite (calculate_risk_metrics_numeric df _ He Hseries). cbn [fst].
  unfold derived_columns, assigned_frame. cbn [index columns].
  repeat apply Forall_cons_2; [| | | | apply Forall_nil_2];
    eexists; (split; [by simplify_map_eq |]).
  - by rewrite pct_change_length.
  - unfold Pandas.cumprod. by rewrite cum_from_length, length_map, pct_change_length.
  - unfold Pandas.cummax, Pandas.cumprod.
    by rewrite !cum_from_length, length_map, pct_change_length.
  - by rewrite drawdown_of_length, pct_change_length.
Qed.

Lemma risk_metrics_columns_aligned_witness :
  empty falling_frame = false /\
  columns falling_frame !! "returns" = None /\
  columns falling_frame !! "value" = Some (Float64 [64; 48; 24; 6]) /\
  length [64; 48; 24; 6] = length (index falling_frame) /\
  Forall (λ c, exists xs,
            columns (fst (calculate_risk_metrics falling_frame)) !! c = Some (Float64 xs) /\
            length xs = length (index (fst (calculate_risk_metrics falling_frame))))
    derived_columns.
Proof.
  do 4 (split; [reflexivity |]).
  exact (risk_metrics_columns_aligned falling_frame [64; 48; 24; 6]
           eq_refl eq_refl eq_refl eq_refl).
Defined.
End MetricsEdges.

(** * More on the portfolio check *)

Section PortfolioCheckEdges.
Local Open Scope float_scope.
Import PyFloat.

(** X11. When no metrics can be computed, because the frame is empty or
    has no numeric return series, the check answers "not acceptable" with
    an empty result and leaves the frame as it is. *)
Theorem check_portfolio_risk_without_metrics (self : RiskManager) (df : DataFrame) :
  empty df = true \/ return_series df = None ->
  check_portfolio_risk self df = (df, Returns (false, NoResult)).
Proof.
  intros Hno. unfold check_portfolio_risk, mbind, py_bind.
  assert (calculate_risk_metrics df = (df, Returns ∅)) as ->; [| done].
  destruct (empty df) eqn:He; [by apply calculate_risk_metrics_empty |].
  destruct Hno as [? | Hr]; [done |]. by apply calculate_risk_metrics_malformed.
Qed.

Lemma check_portfolio_risk_without_metrics_witness :
  return_series malformed_frame = None /\
  check_portfolio_risk default_risk_manager malformed_frame
    = (malformed_frame, Returns (false, NoResult)).
Proof.
  split; [reflexivity |].
  exact (check_portfolio_risk_without_metrics default_risk_manager malformed_frame
           (or_intror eq_refl)).
Defined.

Lemma risk_metrics_never_raises_value (df : DataFrame) :
  exists metrics, snd (calculate_risk_metrics df) = Returns metrics.
Proof.
  destruct (empty df) eqn:He.
  - exists ∅. by rewrite calculate_risk_metrics_empty.
  - destruct (return_series df) as [returns |] eqn:Hr.
    + exists (metrics_of returns). by rewrite (calculate_risk_metrics_numeric df returns).
    + exists ∅. by rewrite calculate_risk_metrics_malformed.
Qed.



(** X13. The check never raises, and its two results agree: the flag is
    false with the empty result exactly when the metrics are empty;
    otherwise the result holds the same flag and the metrics just
    computed, at most one warning, and the flag is true exactly when there
    is no warning. *)
Theorem check_portfolio_risk_consistent (self : RiskManager) (df : DataFrame) :
  exists flag result metrics,
    snd (check_portfolio_risk self df) = Returns (flag, result) /\
    snd (calculate_risk_metrics df) = Returns metrics /\
    match result with
    | NoResult => flag = false /\ metrics = ∅
    | RiskResult is_acceptable metrics' warnings =>
        is_acceptable = flag /\ metrics' = metrics /\ metrics <> ∅ /\
        (length warnings <= 1)%nat /\ (flag = true <-> warnings = [])
    end.
Proof.
  destruct (risk_metrics_never_raises_value df) as [metrics Hrun].
  unfold check_portfolio_risk, mbind, py_bind.
  destruct (calculate_risk_metrics df) as [df' o]. cbn [snd] in Hrun. subst o.
  case_bool_decide as Hsize.
  - exists false, NoResult, metrics. by apply map_size_empty_inv in Hsize.
  - assert (metrics <> ∅) by (intros ->; by rewrite map_size_empty in Hsize).
    destruct (metrics !! "max_drawdown") as [max_dd |].
    + destruct (gtb (abs max_dd) (max_drawdown self)); eexists _, _, metrics;
        (split; [reflexivity |]); cbn; repeat split; try done; lia.
    + eexists _, _, metrics. split; [reflexivity |]. cbn. repeat split; try done; lia.
Qed.
End PortfolioCheckEdges.

(** * Reading the defaults from the environment *)

Section Environment.

Lemma append_cons (a : ascii) (s t : string) : String a s +:+ t = String a (s +:+ t).
Proof. reflexivity. Qed.

Lemma append_nil (t : string) : "" +:+ t = t.
Proof. reflexivity. Qed.

Lemma all_space_cons (c : ascii) (s : string) :
  all_space (String c s) <-> is_space c = true /\ all_space s.
Proof.
  unfold all_space. cbn [lstrip]. destruct (is_space c).
  - split; [by intros Hs | by intros [_ Hs]].
  - split; [done | by intros [Hc _]].
Qed.

Lemma space_not_hash (c : ascii) : is_space c = true -> Ascii.eqb c "#" = false.
Proof. by destruct c as [[] [] [] [] [] [] [] []]. Qed.

Lemma split_first_before (sep : ascii) (v rest : string) :
  without sep v -> split_first sep (v +:+ String sep rest) = v.
Proof.
  unfold without. induction v as [| a v IH]; intros Hv.
  - rewrite append_nil. cbn [split_first]. by rewrite Ascii.eqb_refl.
  - rewrite append_cons. cbn [split_first] in *.
    destruct (Ascii.eqb a sep); [done |]. injection Hv as Hv. by rewrite IH.
Qed.

Lemma split_first_space_l (ws s : string) :
  all_space ws -> split_first "#" (ws +:+ s) = ws +:+ split_first "#" s.
Proof.
  induction ws as [| c ws IH]; [done |].
  intros [Hc Hws]%all_space_cons. rewrite !append_cons. cbn [split_first].
  by rewrite (space_not_hash c Hc), IH.
Qed.

Lemma split_first_space_r (s ws : string) :
  all_space ws ->
  exists tail, all_space tail /\ split_first "#" (s +:+ ws) = split_first "#" s +:+ tail.
Proof.
  intros Hws. induction s as [| c s (tail & Htail & IH)].
  - exists ws. split; [done |]. rewrite !append_nil. clear -Hws.
    induction ws as [| c ws IH]; [done |].
    apply all_space_cons in Hws as [Hc Hws]. cbn [split_first].
    rewrite (space_not_hash c Hc). f_equal. by apply IH.
  - rewrite append_cons. cbn [split_first]. destruct (Ascii.eqb c "#").
    + by exists "".
    + exists tail. split; [done |]. by rewrite IH.
Qed.

Lemma lstrip_space_l (ws s : string) : all_space ws -> lstrip (ws +:+ s) = lstrip s.
Proof.
  induction ws as [| c ws IH]; [done |].
  intros [Hc Hws]%all_space_cons. rewrite append_cons. cbn [lstrip].
  rewrite Hc. by apply IH.
Qed.

Lemma rstrip_all_space (ws : string) : all_space ws -> rstrip ws = "".
Proof.
  induction ws as [| c ws IH]; [done |].
  intros [Hc Hws]%all_space_cons. cbn [rstrip]. by rewrite IH, Hc.
Qed.

Lemma rstrip_space_r (s ws : string) : all_space ws -> rstrip (s +:+ ws) = rstrip s.
Proof.
  intros Hws. induction s as [| c s IH]; [by apply rstrip_all_space |].
  rewrite append_cons. cbn [rstrip]. by rewrite IH.
Qed.

Lemma strip_space_r (s ws : string) : all_space ws -> strip (s +:+ ws) = strip s.
Proof.
  intros Hws. unfold strip. induction s as [| c s IH].
  - rewrite append_nil. by rewrite Hws.
  - rewrite append_cons. cbn [lstrip]. destruct (is_space c); [done |].
    rewrite <- append_cons. by apply rstrip_space_r.
Qed.

Lemma strip_space_l (ws s : string) : all_space ws -> strip (ws +:+ s) = strip s.
Proof. intros Hws. unfold strip. by rewrite lstrip_space_l. Qed.

Context {R : Type} (float_of_text : string -> R).

(** X14. What follows the first [#] in the value of the variable is a
    comment and plays no part; and a variable that is not set is read as
    if it were set to the default text. *)
Theorem parse_env_float_comment (environ : gmap string string)
    (env_var default_value value comment : string) :
  without "#" value ->
  parse_env_float float_of_text (<[env_var := value +:+ String "#" comment]> environ)
      env_var default_value
    = parse_env_float float_of_text (<[env_var := value]> environ) env_var default_value
  /\ (environ !! env_var = None ->
      parse_env_float float_of_text environ env_var default_value
        = parse_env_float float_of_text (<[env_var := default_value]> environ)
            env_var default_value).
Proof.
  intros Hv. unfold parse_env_float, getenv. rewrite !lookup_insert_eq.
  cbn [default from_option id]. split.
  - rewrite (split_first_before _ value comment Hv). by rewrite Hv.
  - by intros ->.
Qed.

(** X15. Whitespace before and after the text of the variable plays no
    part either. *)
Theorem parse_env_float_whitespace (environ : gmap string string)
    (env_var default_value before value after : string) :
  all_space before ->
  all_space after ->
  parse_env_float float_of_text (<[env_var := before +:+ value +:+ after]> environ)
      env_var default_value
    = parse_env_float float_of_text (<[env_var := value]> environ) env_var default_value.
Proof.
  intros Hb Ha. unfold parse_env_float, getenv. rewrite !lookup_insert_eq.
  cbn [default from_option id]. f_equal. rewrite split_first_space_l by done.
  destruct (split_first_space_r value after Ha) as (tail & Htail & ->).
  by rewrite strip_space_l, strip_space_r.
Qed.
End Environment.

Lemma parse_env_float_comment_witness :
  without "#" "0.05 " /\
  parse_env_float id (<["MAX_POSITION_SIZE" := "0.05 " +:+ String "#" " five percent"]> ∅)
      "MAX_POSITION_SIZE" "0.02"
    = parse_env_float id (<["MAX_POSITION_SIZE" := "0.05 "]> ∅) "MAX_POSITION_SIZE" "0.02" /\
  parse_env_float id (<["MAX_POSITION_SIZE" := "0.05 "]> ∅) "MAX_POSITION_SIZE" "0.02"
    = "0.05".
Proof.
  split; [reflexivity |]. split; [| reflexivity].
  exact (proj1 (parse_env_float_comment id ∅ "MAX_POSITION_SIZE" "0.02" "0.05 "
                  " five percent" eq_refl)).
Defined.

Lemma parse_env_float_whitespace_witness :
  all_space "  " /\ all_space " " /\
  parse_env_float id (<["MAX_DRAWDOWN" := "  " +:+ "0.1#max" +:+ " "]> ∅) "MAX_DRAWDOWN" "0.15"
    = parse_env_float id (<["MAX_DRAWDOWN" := "0.1#max"]> ∅) "MAX_DRAWDOWN" "0.15".
Proof.
  do 2 (split; [reflexivity |]).
  exact (parse_env_float_whitespace id ∅ "MAX_DRAWDOWN" "0.15" "  " "0.1#max" " "
           eq_refl eq_refl).
Defined.
